(** * Mirrors service: configuration loading and availability probing

    A shallow embedding of [utils.py]: the Python functions become Rocq
    functions over an exception-and-log monad, the HTTP session becomes an
    explicit state threaded through the probe, and the file system and the
    JSON-schema validator are parameters of the loaders. *)

From Stdlib Require Import String Ascii List ZArith Lia Bool Arith.
From Stdlib Require Import DecimalString.
Import ListNotations.
Local Open Scope string_scope.
Local Open Scope list_scope.

(** ** Python strings and paths *)

Module Py.

(** The double quote, which the messages of the source contain. *)
Definition dq : string := String "034"%char EmptyString.

(** [q s] is [s] between double quotes. *)
Definition q (s : string) : string := dq ++ s ++ dq.

(** [s.startswith(p)] *)
Definition startswith (s p : string) : bool := String.prefix p s.

(** [s.endswith("/")], as [posixpath.join] asks it. *)
Fixpoint endswith_sep (s : string) : bool :=
  match s with
  | EmptyString => false
  | String c EmptyString => Ascii.eqb c "/"%char
  | String _ rest => endswith_sep rest
  end.

(** [sep.join(parts)] *)
Fixpoint join (sep : string) (parts : list string) : string :=
  match parts with
  | [] => ""
  | [p] => p
  | p :: rest => p ++ sep ++ join sep rest
  end.

(** The scan of [str.replace] for a non-empty [old]: occurrences are taken
    from the left and do not overlap; [skip] counts the characters of an
    occurrence still to pass over. *)
Fixpoint replace_scan (old new : string) (skip : nat) (s : string) : string :=
  match s with
  | EmptyString => EmptyString
  | String c rest =>
      match skip with
      | S k => replace_scan old new k rest
      | O =>
          if String.prefix old s
          then new ++ replace_scan old new (String.length old - 1) rest
          else String c (replace_scan old new 0 rest)
      end
  end.

(** With an empty [old], [str.replace] puts [new] before every character
    and at the end. *)
Fixpoint replace_empty (new s : string) : string :=
  match s with
  | EmptyString => new
  | String c rest => new ++ String c (replace_empty new rest)
  end.

(** [s.replace(old, new)] *)
Definition replace (s old new : string) : string :=
  match old with
  | EmptyString => replace_empty new s
  | String _ _ => replace_scan old new 0 s
  end.

(** One round of the loop of [posixpath.join]: a component that starts with
    the separator replaces what came before it; a separator is put in only
    where the path so far is non-empty and does not end with one. *)
Definition join_step (path b : string) : string :=
  if startswith b "/" then b
  else if (String.eqb path "" || endswith_sep path)%bool then path ++ b
  else path ++ "/" ++ b.

(** [os.path.join(a, *p)] on a POSIX system. *)
Definition os_path_join (a : string) (p : list string) : string :=
  fold_left join_step p a.

(** [x in xs] for a list of strings. *)
Definition contains (xs : list string) (x : string) : bool :=
  existsb (String.eqb x) xs.

End Py.

(** ** Exceptions, log records and the effect monad *)

(** The exceptions the modelled code raises or lets through. *)
Inductive exn : Type :=
| KeyError (key : string)
| ValidationError (message : string)
| TypeError
| AttributeError
| IndexError
| StopIteration
| ClientError
| TimeoutError
| OSError
| YAMLError
| RequestException
| JSONDecodeError
| UnicodeDecodeError.

(** The result of a Python call: a value or a raised exception. *)
Inductive res (A : Type) : Type :=
| Ret (a : A)
| Raise (e : exn).
Arguments Ret {A} a.
Arguments Raise {A} e.

Inductive level : Type := INFO | ERROR.

(** An argument handed to a [logger] call after the format string. *)
Inductive log_arg : Type :=
| ArgStr (s : string)
| ArgStrs (l : list string)
| ArgExn (e : exn)
| ArgNone.

(** What a request carries besides its URL. *)
Record request : Type := mk_request {
  req_url : string;
  req_headers : list (string * string);
  req_timeout : Z
}.

(** How a request ends: [Status code] when the response came and its body
    was read, with the status of the response, and [Throws e] when the
    request or the reading of the body raised [e], whatever the class of
    [e] (an error of the client, a timeout, a body that does not decode). *)
Inductive reply : Type :=
| Status (code : Z)
| Throws (e : exn).

(** The two failures the probe has a handler for. *)
Abbreviation ClientFailure := (Throws ClientError).
Abbreviation TimedOut := (Throws TimeoutError).

(** The observable effects: a call of the logger, or a GET with its reply. *)
Inductive event : Type :=
| Log (lvl : level) (fmt : string) (args : list log_arg)
| Get (req : request) (rep : reply).

(** A computation over a state [S]: it ends in a value or an exception,
    leaves a new state, and emits events in order. *)
Definition M (S A : Type) : Type := S -> res A * S * list event.

Definition ret {S A} (a : A) : M S A := fun s => (Ret a, s, []).

Definition raise {S A} (e : exn) : M S A := fun s => (Raise e, s, []).

Definition bind {S A B} (m : M S A) (f : A -> M S B) : M S B :=
  fun s =>
    match m s with
    | (Ret a, s1, ev1) =>
        match f a s1 with
        | (r, s2, ev2) => (r, s2, ev1 ++ ev2)
        end
    | (Raise e, s1, ev1) => (Raise e, s1, ev1)
    end.

Definition lift {S A} (r : res A) : M S A := fun s => (r, s, []).

Definition log {S} (lvl : level) (fmt : string) (args : list log_arg) : M S unit :=
  fun s => (Ret tt, s, [Log lvl fmt args]).

Declare Scope py_scope.
Delimit Scope py_scope with py.
Notation "x <- m ;; k" := (bind m (fun x => k))
  (at level 61, m at next level, right associativity) : py_scope.
Notation "m ;; k" := (bind m (fun _ => k))
  (at level 61, right associativity) : py_scope.
Local Open Scope py_scope.

(** [try: m except ...]: [handler] says which exceptions the clauses catch
    and what runs then. *)
Definition try_except {S A} (m : M S A) (handler : exn -> option (M S A))
    : M S A :=
  fun s =>
    match m s with
    | (Raise e, s1, ev1) =>
        match handler e with
        | Some h =>
            match h s1 with
            | (r, s2, ev2) => (r, s2, ev1 ++ ev2)
            end
        | None => (Raise e, s1, ev1)
        end
    | done => done
    end.

(** [[f(x) for x in xs]], and a [for] loop whose body only raises or goes on. *)
Fixpoint for_each {S A B} (xs : list A) (f : A -> M S B) : M S (list B) :=
  match xs with
  | [] => ret []
  | x :: rest =>
      y <- f x ;;
      ys <- for_each rest f ;;
      ret (y :: ys)
  end.

(** The value, the final state and the events of a run. *)
Definition result {S A} (x : res A * S * list event) : res A := fst (fst x).
Definition final {S A} (x : res A * S * list event) : S := snd (fst x).
Definition events {S A} (x : res A * S * list event) : list event := snd x.

(** The GETs among the events, in order. *)
Fixpoint gets (ev : list event) : list (request * reply) :=
  match ev with
  | [] => []
  | Get rq rp :: rest => (rq, rp) :: gets rest
  | Log _ _ _ :: rest => gets rest
  end.

(** The URLs requested, in order. *)
Definition requested (ev : list event) : list string :=
  map (fun g => req_url (fst g)) (gets ev).

(** The calls of [logger.error] among the events. *)
Definition is_error (e : event) : bool :=
  match e with
  | Log ERROR _ _ => true
  | _ => false
  end.

Definition errors (ev : list event) : list event := filter is_error ev.

(** What a session answers to requests sent one after the other, and the
    session they leave. *)
Fixpoint replay {S} (http_get : S -> request -> reply * S) (s : S)
    (rqs : list request) : list (request * reply) :=
  match rqs with
  | [] => []
  | rq :: rest =>
      (rq, fst (http_get s rq)) :: replay http_get (snd (http_get s rq)) rest
  end.

Fixpoint after {S} (http_get : S -> request -> reply * S) (s : S)
    (rqs : list request) : S :=
  match rqs with
  | [] => s
  | rq :: rest => after http_get (snd (http_get s rq)) rest
  end.

(** ** The availability probe *)

Module Probe.

(** The fields of [MirrorData] that [mirror_available] reads; [urls] keeps
    the insertion order of the Python dict. *)
Module MirrorData.
Record t : Type := mk {
  name : string;
  urls : list (string * string);
  private : bool
}.
End MirrorData.

(** [RepoData], at the types the probe uses its fields at. *)
Module RepoData.
Record t : Type := mk {
  name : string;
  path : string;
  arches : list string;
  versions : list string
}.
End RepoData.

(** The constants of the module. *)
Definition HEADERS : list (string * string) :=
  [ ("User-Agent",
     ("Mozilla/5.0 (Windows NT 6.1; WOW64) AppleWebKit/537.36 " ++
      "(KHTML, like Gecko) Chrome/56.0.2924.76 Safari/537.36")%string);
    ("Upgrade-Insecure-Requests", "1");
    ("DNT", "1");
    ("Accept", ("text/html,application/xhtml+xml," ++
                "application/xml;q=0.9,*/*;q=0.8")%string);
    ("Accept-Language", "en-US,en;q=0.5");
    ("Accept-Encoding", "gzip, deflate") ].

Definition AIOHTTP_TIMEOUT : Z := 30.

(** How a [for] body ends: it falls through to the next round with the
    rebound local [arches], or it returns from the function. *)
Inductive flow : Type :=
| Next (arches : list string)
| Return (verdict : string * bool).

(** [next(address for protocol_type, address in urls.items()
         if protocol_type in required_protocols)] *)
Fixpoint next_address (urls : list (string * string))
    (required_protocols : list string) : res string :=
  match urls with
  | [] => Raise StopIteration
  | (protocol_type, address) :: rest =>
      if Py.contains required_protocols protocol_type
      then Ret address
      else next_address rest required_protocols
  end.

(** [x or y] on lists: the first operand when it is non-empty. *)
Definition or_list (x y : list string) : list string :=
  match x with
  | [] => y
  | _ :: _ => x
  end.

(** [xs[0]] *)
Definition item0 (xs : list string) : res string :=
  match xs with
  | [] => Raise IndexError
  | x :: _ => Ret x
  end.

(** The URL of one check. *)
Definition check_url (mirror_url version repo_path : string) : string :=
  Py.os_path_join mirror_url [version; repo_path; "repodata/repomd.xml"].

(** The request of one check. *)
Definition check_request (mirror_url version : string)
    (repo_data : RepoData.t) (arch : string) : request :=
  mk_request
    (check_url mirror_url version
       (Py.replace (RepoData.path repo_data) "$basearch" arch))
    HEADERS AIOHTTP_TIMEOUT.

(** A reply passes a check when it is a response with status 200. *)
Definition ok_reply (r : reply) : bool :=
  match r with
  | Status code => (code =? 200)%Z
  | _ => false
  end.

(** The classes of [except (ClientError, TimeoutError)]. *)
Definition caught (e : exn) : bool :=
  match e with
  | ClientError | TimeoutError => true
  | _ => false
  end.

(** What a reply means for a check: it passes, it fails, or the exception
    of the request is none the probe catches. *)
Definition outcome (r : reply) : res bool :=
  match r with
  | Status code => Ret (code =? 200)%Z
  | Throws e => if caught e then Ret false else Raise e
  end.

Section WithSession.

(** The HTTP session: a state, and what a GET answers and leaves behind. *)
Variable session : Type.
Variable http_get : session -> request -> reply * session.

(** [http_session.get(url, headers=HEADERS, timeout=AIOHTTP_TIMEOUT)]
    followed by [await resp.text()]: the status of the response, or the
    exception the request or the reading of the body raised. *)
Definition get (url : string) : M session Z :=
  fun s =>
    let rq := mk_request url HEADERS AIOHTTP_TIMEOUT in
    let (rp, s') := http_get s rq in
    (match rp with
     | Status code => Ret code
     | Throws e => Raise e
     end, s', [Get rq rp]).

(** The body of the inner loop, for one [version] and one [repo_data], with
    the current binding of [arches].  The versions are strings, so
    [str(version)] is [version]; the first [let] is the assignment that
    rebinds [arches] for the rounds that follow.  The [try] holds the
    request, the reading of the body and the test of the status; an
    exception of a class other than the two of the [except] leaves it. *)
Definition check_repo (mirror_name mirror_url version : string)
    (repo_data : RepoData.t) (arches : list string) : M session flow :=
  let arches := or_list (RepoData.arches repo_data) arches in
  arch <- lift (item0 arches) ;;
  let repo_path := Py.replace (RepoData.path repo_data) "$basearch" arch in
  let check_url := check_url mirror_url version repo_path in
  try_except
    (status <- get check_url ;;
     if negb (status =? 200)%Z then
       log ERROR
         ("Mirror " ++ Py.q "%s" ++ " has one or more invalid repositories")
         [ArgStr mirror_name] ;;
       ret (Return (mirror_name, false))
     else ret (Next arches))
    (fun err =>
       match err with
       | ClientError | TimeoutError =>
           Some
             (log ERROR
                ("Mirror " ++ Py.q "%s" ++
                 " is not available for version " ++ Py.q "%s" ++
                 " and repo path " ++ Py.q "%s" ++ " because " ++
                 Py.q "%s")
                [ArgStr mirror_name; ArgStr version; ArgStr repo_path;
                 ArgExn err] ;;
              ret (Return (mirror_name, false)))
       | _ => None
       end).

(** [for repo_data in repos: ...] *)
Fixpoint for_repos (mirror_name mirror_url version : string)
    (repos : list RepoData.t) (arches : list string) : M session flow :=
  match repos with
  | [] => ret (Next arches)
  | repo_data :: rest =>
      r <- check_repo mirror_name mirror_url version repo_data arches ;;
      match r with
      | Next arches' => for_repos mirror_name mirror_url version rest arches'
      | Return v => ret (Return v)
      end
  end.

(** [for version in versions: for repo_data in repos: ...] *)
Fixpoint for_versions (mirror_name mirror_url : string)
    (versions : list string) (repos : list RepoData.t)
    (arches : list string) : M session flow :=
  match versions with
  | [] => ret (Next arches)
  | version :: rest =>
      r <- for_repos mirror_name mirror_url version repos arches ;;
      match r with
      | Next arches' => for_versions mirror_name mirror_url rest repos arches'
      | Return v => ret (Return v)
      end
  end.

Definition mirror_available (mirror_info : MirrorData.t)
    (versions : list string) (repos : list RepoData.t) (arches : list string)
    (required_protocols : list string) : M session (string * bool) :=
  let mirror_name := MirrorData.name mirror_info in
  log INFO ("Checking mirror " ++ Py.q "%s" ++ "...") [ArgStr mirror_name] ;;
  if MirrorData.private mirror_info then
    log INFO ("Mirror " ++ Py.q "%s" ++ " is private and won't be checked")
      [ArgStr mirror_name] ;;
    ret (mirror_name, true)
  else
    match next_address (MirrorData.urls mirror_info) required_protocols with
    | Raise StopIteration =>
        log ERROR
          ("Mirror " ++ Py.q "%s" ++ " has no one address with protocols " ++
           Py.q "%s")
          [ArgStr mirror_name; ArgStrs required_protocols] ;;
        ret (mirror_name, false)
    | Raise e => raise e
    | Ret mirror_url =>
        r <- for_versions mirror_name mirror_url versions repos arches ;;
        match r with
        | Return v => ret v
        | Next _ =>
            log INFO ("Mirror " ++ Py.q "%s" ++ " is available")
              [ArgStr mirror_name] ;;
            ret (mirror_name, true)
        end
    end.

(** The two loops as one loop over the pairs of a version and a repo, used
    to reason about them: [for_versions] runs it on the cross product. *)
Fixpoint for_pairs (mirror_name mirror_url : string)
    (pairs : list (string * RepoData.t)) (arches : list string)
    : M session flow :=
  match pairs with
  | [] => ret (Next arches)
  | (version, repo_data) :: rest =>
      r <- check_repo mirror_name mirror_url version repo_data arches ;;
      match r with
      | Next arches' => for_pairs mirror_name mirror_url rest arches'
      | Return v => ret (Return v)
      end
  end.

(** What follows a loop that fell through. *)
Definition and_then (m : M session flow)
    (k : list string -> M session flow) : M session flow :=
  bind m (fun r => match r with
                   | Next a => k a
                   | Return v => ret (Return v)
                   end).

(** The runs of the loop over pairs, as a relation: the loop is over, or
    its first round has no architecture and raises, or sends a request
    that fails and returns, or sends one whose exception the probe does not
    catch, or sends one that passes and goes on with the architectures of
    that round. *)
Inductive loop_run (mirror_name mirror_url : string)
  : list (string * RepoData.t) -> list string -> session ->
    res flow * session * list event -> Prop :=
| run_done a s :
    loop_run mirror_name mirror_url [] a s (Ret (Next a), s, [])
| run_stuck v r rest a s :
    or_list (RepoData.arches r) a = [] ->
    loop_run mirror_name mirror_url ((v, r) :: rest) a s
      (Raise IndexError, s, [])
| run_fail v r rest a s arch tl logs :
    or_list (RepoData.arches r) a = arch :: tl ->
    outcome (fst (http_get s (check_request mirror_url v r arch)))
    = Ret false ->
    gets logs = [] ->
    loop_run mirror_name mirror_url ((v, r) :: rest) a s
      (Ret (Return (mirror_name, false)),
       snd (http_get s (check_request mirror_url v r arch)),
       Get (check_request mirror_url v r arch)
         (fst (http_get s (check_request mirror_url v r arch))) :: logs)
| run_escape v r rest a s arch tl e :
    or_list (RepoData.arches r) a = arch :: tl ->
    outcome (fst (http_get s (check_request mirror_url v r arch)))
    = Raise e ->
    loop_run mirror_name mirror_url ((v, r) :: rest) a s
      (Raise e,
       snd (http_get s (check_request mirror_url v r arch)),
       [Get (check_request mirror_url v r arch)
          (fst (http_get s (check_request mirror_url v r arch)))])
| run_pass v r rest a s arch tl x s' ev :
    or_list (RepoData.arches r) a = arch :: tl ->
    outcome (fst (http_get s (check_request mirror_url v r arch)))
    = Ret true ->
    loop_run mirror_name mirror_url rest (arch :: tl)
      (snd (http_get s (check_request mirror_url v r arch))) (x, s', ev) ->
    loop_run mirror_name mirror_url ((v, r) :: rest) a s
      (x, s',
       Get (check_request mirror_url v r arch)
         (fst (http_get s (check_request mirror_url v r arch))) :: ev).

End WithSession.

Arguments and_then {session} m k.


(** The URLs a probe asks for when every reply passes, for pairs taken in
    order: each repo is checked with the first architecture of its own
    [arches] or, when it has none, of the list the previous round left in
    [arches]; the list stops where that list is empty. *)
Fixpoint plan (mirror_url : string) (pairs : list (string * RepoData.t))
    (arches : list string) : list string :=
  match pairs with
  | [] => []
  | (version, repo_data) :: rest =>
      let arches := or_list (RepoData.arches repo_data) arches in
      match arches with
      | [] => []
      | arch :: _ =>
          check_url mirror_url version
            (Py.replace (RepoData.path repo_data) "$basearch" arch)
          :: plan mirror_url rest arches
      end
  end.

(** The requests of the plan. *)
Definition planned (mirror_url : string) (pairs : list (string * RepoData.t))
    (arches : list string) : list request :=
  map (fun url => mk_request url HEADERS AIOHTTP_TIMEOUT)
    (plan mirror_url pairs arches).


(** When the probe runs out of an architecture to put in a path: it is not
    private, it has an address, and the first repo of the first version has
    no [arches] while the [arches] argument is empty too. *)
Definition no_arch (mirror_info : MirrorData.t) (versions : list string)
    (repos : list RepoData.t) (arches required_protocols : list string)
    : Prop :=
  MirrorData.private mirror_info = false /\
  (exists mirror_url,
     next_address (MirrorData.urls mirror_info) required_protocols
     = Ret mirror_url) /\
  versions <> [] /\
  exists repo_data rest,
    repos = repo_data :: rest /\
    RepoData.arches repo_data = [] /\ arches = [].

(** A session whose replies are read off a list, one per request; once
    the list is used up every request gets status 200. *)
Definition scripted : Type := list reply.
Definition scripted_get (s : scripted) (_ : request) : reply * scripted :=
  match s with
  | [] => (Status 200, [])
  | r :: rest => (r, rest)
  end.

(** Two repos the probe cannot tell apart: the same path and the same
    first architecture, or none. *)
Definition same_checks (r r' : RepoData.t) : Prop :=
  RepoData.path r = RepoData.path r' /\
  hd_error (RepoData.arches r) = hd_error (RepoData.arches r').

(** A mirror, two repos and a service configuration to run the probe on. *)
Module Example.
Definition mirror : MirrorData.t :=
  MirrorData.mk "mirror" [("https", "https://example.com")] false.
Definition private_mirror : MirrorData.t :=
  MirrorData.mk "private" [("https", "https://example.com")] true.
Definition two_urls : MirrorData.t :=
  MirrorData.mk "two"
    [("rsync", "rsync://example.com"); ("http", "http://example.com");
     ("https", "https://example.com")] false.
Definition baseos : RepoData.t :=
  RepoData.mk "baseos" "$basearch/baseos" [] [].
Definition extras : RepoData.t :=
  RepoData.mk "extras" "extras/$basearch/os" ["aarch64"] [].
Definition three_repos : list RepoData.t := [baseos; extras; baseos].
End Example.

End Probe.

(** ** Loading the configuration *)

Module Config.

(** What [yaml.safe_load] returns, for documents of null, booleans,
    integers, strings, sequences and mappings with string keys; a mapping
    keeps the order of its keys, and a string is a sequence of code points
    below 256. *)
#[warnings="-register-all"]
Inductive yaml : Type :=
| YNone
| YBool (b : bool)
| YInt (z : Z)
| YStr (s : string)
| YList (items : list yaml)
| YDict (entries : list (string * yaml)).

Fixpoint lookup (key : string) (entries : list (string * yaml)) : option yaml :=
  match entries with
  | [] => None
  | (k, v) :: rest => if String.eqb key k then Some v else lookup key rest
  end.

(** [d[key]] for a string [key]. *)
Definition getitem {S} (d : yaml) (key : string) : M S yaml :=
  match d with
  | YDict entries =>
      match lookup key entries with
      | Some v => ret v
      | None => raise (KeyError key)
      end
  | _ => raise TypeError
  end.

(** [d.get(key, default)] *)
Definition get_default {S} (d : yaml) (key : string) (default : yaml)
    : M S yaml :=
  match d with
  | YDict entries =>
      match lookup key entries with
      | Some v => ret v
      | None => ret default
      end
  | _ => raise AttributeError
  end.

(** The characters of a string, each as a string. *)
Fixpoint chars (s : string) : list yaml :=
  match s with
  | EmptyString => []
  | String c rest => YStr (String c EmptyString) :: chars rest
  end.

(** What [for x in v] goes through. *)
Definition iter {S} (v : yaml) : M S (list yaml) :=
  match v with
  | YList items => ret items
  | YDict entries => ret (map (fun kv => YStr (fst kv)) entries)
  | YStr s => ret (chars s)
  | _ => raise TypeError
  end.

(** [a == b] *)
Fixpoint py_eq (a b : yaml) : bool :=
  match a, b with
  | YNone, YNone => true
  | YBool x, YBool y => Bool.eqb x y
  | YBool x, YInt y => (y =? (if x then 1 else 0))%Z
  | YInt x, YBool y => (x =? (if y then 1 else 0))%Z
  | YInt x, YInt y => (x =? y)%Z
  | YStr x, YStr y => String.eqb x y
  | YList xs, YList ys =>
      (fix items (xs ys : list yaml) : bool :=
         match xs, ys with
         | [], [] => true
         | x :: xs', y :: ys' => py_eq x y && items xs' ys'
         | _, _ => false
         end) xs ys
  | YDict xs, YDict ys =>
      Nat.eqb (length xs) (length ys) &&
      (fix entries (xs : list (string * yaml)) : bool :=
         match xs with
         | [] => true
         | (k, v) :: xs' =>
             match lookup k ys with
             | Some w => py_eq v w
             | None => false
             end && entries xs'
         end) xs
  | _, _ => false
  end.

(** [t in s] for two strings. *)
Fixpoint is_substring (t s : string) : bool :=
  if String.prefix t s then true
  else
    match s with
    | EmptyString => false
    | String _ rest => is_substring t rest
    end.

(** [item in container] *)
Definition py_in {S} (item container : yaml) : M S bool :=
  match container with
  | YList items => ret (existsb (py_eq item) items)
  | YDict entries =>
      match item with
      | YList _ | YDict _ => raise TypeError
      | YStr k => ret (existsb (String.eqb k) (map fst entries))
      | _ => ret false
      end
  | YStr s =>
      match item with
      | YStr t => ret (is_substring t s)
      | _ => raise TypeError
      end
  | _ => raise TypeError
  end.

Definition hex_digit (n : nat) : ascii :=
  nth n ["0"; "1"; "2"; "3"; "4"; "5"; "6"; "7"; "8"; "9";
         "a"; "b"; "c"; "d"; "e"; "f"]%char "0"%char.

Definition hex2 (c : ascii) : string :=
  let n := nat_of_ascii c in
  String (hex_digit (n / 16)) (String (hex_digit (n mod 16)) EmptyString).

(** [str.isprintable] on a code point below 256. *)
Definition printable (c : ascii) : bool :=
  let n := nat_of_ascii c in
  ((32 <=? n) && (n <? 127) || (161 <=? n) && negb (n =? 173))%nat.

Definition has_char (c : ascii) (s : string) : bool :=
  existsb (Ascii.eqb c) (list_ascii_of_string s).

(** One character inside the quotes of [repr]. *)
Definition escape (quote c : ascii) : string :=
  if (Ascii.eqb c quote || Ascii.eqb c "\"%char)%bool
  then String "\"%char (String c EmptyString)
  else if Ascii.eqb c "009"%char then "\t"
  else if Ascii.eqb c "010"%char then "\n"
  else if Ascii.eqb c "013"%char then "\r"
  else if printable c then String c EmptyString
  else "\x" ++ hex2 c.

(** [repr(s)] for a string: single quotes, unless the string has one and
    no double quote. *)
Definition repr_str (s : string) : string :=
  let quote :=
    if (has_char "'"%char s && negb (has_char "034"%char s))%bool
    then "034"%char else "'"%char in
  String quote
    (String.concat "" (map (escape quote) (list_ascii_of_string s))
     ++ String quote EmptyString).

(** [str(z)] for an integer. *)
Definition str_int (z : Z) : string := NilZero.string_of_int (Z.to_int z).

(** [repr(v)] *)
Fixpoint py_repr (v : yaml) : string :=
  match v with
  | YNone => "None"
  | YBool true => "True"
  | YBool false => "False"
  | YInt z => str_int z
  | YStr s => repr_str s
  | YList items => "[" ++ Py.join ", " (map py_repr items) ++ "]"
  | YDict entries =>
      "{" ++
      Py.join ", "
        (map (fun kv => (repr_str (fst kv) ++ ": " ++ py_repr (snd kv))%string)
           entries)
      ++ "}"
  end.

(** [str(v)] *)
Definition py_str (v : yaml) : string :=
  match v with
  | YStr s => s
  | _ => py_repr v
  end.

(** [sep.join(v)]: every item has to be a string. *)
Definition str_join {S} (sep : string) (v : yaml) : M S string :=
  items <- iter v ;;
  parts <- for_each items
             (fun x => match x with
                       | YStr s => ret s
                       | _ => raise TypeError
                       end) ;;
  ret (Py.join sep parts).


(** A Python list of strings. *)
Definition str_list (l : list string) : yaml := YList (map YStr l).

Module RepoData.
Record t : Type := mk {
  name : yaml;
  path : yaml;
  arches : yaml;
  versions : yaml
}.
End RepoData.

Module MainConfig.
Record t : Type := mk {
  allowed_outdate : yaml;
  mirrors_dir : yaml;
  versions : yaml;
  duplicated_versions : yaml;
  arches : yaml;
  required_protocols : yaml;
  repos : list RepoData.t
}.
End MainConfig.

(** One round of the loop of [_process_repo_attributes]. *)
Definition check_attribute {S} (repo_name attributes repo_arch : yaml)
    : M S unit :=
  found <- py_in repo_arch attributes ;;
  if negb found then
    joined <- str_join ", " attributes ;;
    raise (ValidationError
             ("Attr " ++ Py.q (py_str repo_arch) ++ " of repo " ++
              Py.q (py_str repo_name) ++ " is absent " ++
              "in the main list of attrs " ++ Py.q joined))
  else ret tt.

(** The helper nested in [process_main_config]. *)
Definition _process_repo_attributes {S} (repo_name repo_attributes
    attributes : yaml) : M S yaml :=
  items <- iter repo_attributes ;;
  for_each items (check_attribute repo_name attributes) ;;
  ret repo_attributes.

(** The message of [_process_repo_attributes] for an attribute [x] that is
    not in a list of strings. *)
Definition absent_message (x : string) (repo_name : yaml)
    (attributes : list string) : string :=
  ("Attr " ++ Py.q x ++ " of repo " ++ Py.q (py_str repo_name) ++
   " is absent " ++ "in the main list of attrs " ++
   Py.q (Py.join ", " attributes))%string.

(** The [RepoData(...)] of the comprehension in [process_main_config], for
    one [repo] of [yaml_data['repos']]; the arguments are evaluated in the
    order they are written in. *)
Definition repo_data {S} (yaml_data repo : yaml) : M S RepoData.t :=
  name <- getitem repo "name" ;;
  path <- getitem repo "path" ;;
  repo_name <- getitem repo "name" ;;
  repo_attributes <- get_default repo "arches" (YList []) ;;
  attributes <- getitem yaml_data "arches" ;;
  arches <- _process_repo_attributes repo_name repo_attributes attributes ;;
  repo_name <- getitem repo "name" ;;
  vers <- get_default repo "versions" (YList []) ;;
  ver_items <- iter vers ;;
  let repo_attributes := str_list (map py_str ver_items) in
  attributes <- getitem yaml_data "arches" ;;
  versions <- _process_repo_attributes repo_name repo_attributes attributes ;;
  ret (RepoData.mk name path arches versions).

Definition process_main_config {S} (yaml_data : yaml)
    : M S (option MainConfig.t * option string) :=
  try_except
    (allowed_outdate <- getitem yaml_data "allowed_outdate" ;;
     mirrors_dir <- getitem yaml_data "mirrors_dir" ;;
     versions <- getitem yaml_data "versions" ;;
     duplicated_versions <- getitem yaml_data "duplicated_versions" ;;
     arches <- getitem yaml_data "arches" ;;
     required_protocols <- getitem yaml_data "required_protocols" ;;
     repos_field <- getitem yaml_data "repos" ;;
     repo_items <- iter repos_field ;;
     repos <- for_each repo_items (repo_data yaml_data) ;;
     ret (Some (MainConfig.mk allowed_outdate mirrors_dir versions
                  duplicated_versions arches required_protocols repos),
          None))
    (fun e =>
       match e with
       | ValidationError message => Some (ret (None, Some message))
       | _ => None
       end).

(** A service document of the shape the loader is written for, to state
    what it accepts: a repo with its name, its path, and its [arches] and
    [versions] where it has them. *)
Record repo_entry : Type := mk_repo_entry {
  entry_name : string;
  entry_path : string;
  entry_arches : option (list string);
  entry_versions : option (list yaml)
}.

Definition optional_entry (key : string) (v : option yaml)
    : list (string * yaml) :=
  match v with
  | Some x => [(key, x)]
  | None => []
  end.

Definition repo_yaml (r : repo_entry) : yaml :=
  YDict
    (("name", YStr (entry_name r))
     :: ("path", YStr (entry_path r))
     :: optional_entry "arches" (option_map str_list (entry_arches r))
     ++ optional_entry "versions" (option_map YList (entry_versions r)))%list.

Definition service_yaml (allowed_outdate mirrors_dir versions
    duplicated_versions : yaml) (arches : list string)
    (required_protocols : yaml) (repos : list repo_entry) : yaml :=
  YDict
    [ ("allowed_outdate", allowed_outdate);
      ("mirrors_dir", mirrors_dir);
      ("versions", versions);
      ("duplicated_versions", duplicated_versions);
      ("arches", str_list arches);
      ("required_protocols", required_protocols);
      ("repos", YList (map repo_yaml repos)) ].

(** The lists of a repo entry as the loader reads them. *)
Definition arches_of (r : repo_entry) : list string :=
  match entry_arches r with
  | Some l => l
  | None => []
  end.

Definition versions_of (r : repo_entry) : list string :=
  match entry_versions r with
  | Some l => map py_str l
  | None => []
  end.

(** What the loader asks of a repo entry: its arches and its versions are
    all among the [arches] of the document. *)
Definition repo_passes (arches : list string) (r : repo_entry) : bool :=
  forallb (Py.contains arches) (arches_of r) &&
  forallb (Py.contains arches) (versions_of r).

Definition repo_built (r : repo_entry) : RepoData.t :=
  RepoData.mk (YStr (entry_name r)) (YStr (entry_path r))
    (str_list (arches_of r)) (str_list (versions_of r)).

(** [Path(p).name]: what follows the last separator. *)
Fixpoint path_name (p : string) : string :=
  match p with
  | EmptyString => EmptyString
  | String c rest =>
      if has_char "/"%char rest then path_name rest
      else if Ascii.eqb c "/"%char then rest
      else p
  end.

Module MirrorData.
Record t (geo : Type) : Type := mk {
  name : yaml;
  update_frequency : yaml;
  sponsor_name : yaml;
  sponsor_url : yaml;
  email : yaml;
  urls : list (string * yaml);
  subnets : yaml;
  asn : yaml;
  cloud_type : yaml;
  cloud_region : string;
  geolocation : geo;
  private : yaml
}.
Arguments mk {geo}.
Arguments name {geo} t.
Arguments update_frequency {geo} t.
Arguments sponsor_name {geo} t.
Arguments sponsor_url {geo} t.
Arguments email {geo} t.
Arguments urls {geo} t.
Arguments subnets {geo} t.
Arguments asn {geo} t.
Arguments cloud_type {geo} t.
Arguments cloud_region {geo} t.
Arguments geolocation {geo} t.
Arguments private {geo} t.
End MirrorData.

Section Loaders.

(** The file system and the libraries the loaders call: reading a YAML or a
    JSON file, the schema validator of [jsonschema], the directory walk of
    [pathlib], and the directory of the module, where the schemas lie. *)
Variable schema : Type.
Variable load_yaml : string -> res yaml.
Variable load_json_schema : string -> res schema.
Variable validate : yaml -> schema -> res unit.
Variable rglob : string -> string -> list string.
Variable module_dir : string.

(** What [process_mirror_config] calls: the GET of [requests] with the
    decoding of its JSON body, and [GeoLocationData.load_from_json]. *)
Variable GeoLocationData : Type.
Variable load_from_json : yaml -> res GeoLocationData.
Variable requests_get_json : string -> res yaml.

Definition config_validation (yaml_data : yaml) (json_schema : schema)
    : M unit (bool * option string) :=
  try_except
    (lift (validate yaml_data json_schema) ;;
     ret (true, None))
    (fun e =>
       match e with
       | ValidationError message => Some (ret (false, Some message))
       | _ => None
       end).

(** [if err_msg:] on an optional string. *)
Definition truthy (err_msg : option string) : bool :=
  match err_msg with
  | Some (String _ _) => true
  | _ => false
  end.

Definition msg_arg (err_msg : option string) : log_arg :=
  match err_msg with
  | Some m => ArgStr m
  | None => ArgNone
  end.

Definition get_config (path_to_config : string)
    : M unit (option MainConfig.t) :=
  let path_to_json_schema :=
    Py.os_path_join module_dir ["json_schemas/service_config.json"] in
  config_data <- lift (load_yaml path_to_config) ;;
  json_schema <- lift (load_json_schema path_to_json_schema) ;;
  v <- config_validation config_data json_schema ;;
  let (is_valid, err_msg) := v in
  if negb is_valid then
    log ERROR
      ("Main config of the mirror service is invalid because " ++ Py.q "%s")
      [msg_arg err_msg] ;;
    ret None
  else
    p <- process_main_config config_data ;;
    let (config, err_msg) := p in
    if truthy err_msg then
      log ERROR
        ("Main config of the mirror service is invalid because " ++
         Py.q "%s")
        [msg_arg err_msg] ;;
      ret None
    else ret config.

(** The helper nested in [process_mirror_config]; the logger formats the
    name of the mirror with [%s], that is with [str]. *)
Definition _get_mirror_subnets (subnets_field mirror_name : yaml)
    : M unit yaml :=
  match subnets_field with
  | YStr url =>
      try_except (lift (requests_get_json url))
        (fun err =>
           match err with
           | RequestException | JSONDecodeError =>
               Some
                 (log ERROR
                    ("Cannot get subnets of mirror " ++ Py.q "%s" ++
                     " by url " ++ Py.q "%s" ++ " because " ++ Py.q "%s")
                    [ArgStr (py_str mirror_name); ArgStr url; ArgExn err] ;;
                  ret (YList []))
           | _ => None
           end)
  | _ => ret subnets_field
  end.

(** [d.items()] *)
Definition items (d : yaml) : M unit (list (string * yaml)) :=
  match d with
  | YDict entries => ret entries
  | _ => raise AttributeError
  end.

Definition process_mirror_config (yaml_data : yaml)
    : M unit (MirrorData.t GeoLocationData) :=
  name <- getitem yaml_data "name" ;;
  update_frequency <- getitem yaml_data "update_frequency" ;;
  sponsor_name <- getitem yaml_data "sponsor" ;;
  sponsor_url <- getitem yaml_data "sponsor_url" ;;
  email <- get_default yaml_data "email" (YStr "unknown") ;;
  address <- getitem yaml_data "address" ;;
  urls <- items address ;;
  subnets_field <- get_default yaml_data "subnets" (YList []) ;;
  mirror_name <- getitem yaml_data "name" ;;
  subnets <- _get_mirror_subnets subnets_field mirror_name ;;
  asn <- get_default yaml_data "asn" YNone ;;
  cloud_type <- get_default yaml_data "cloud_type" (YStr "") ;;
  cloud_region <- str_join "," yaml_data ;;
  geo_field <- get_default yaml_data "geolocation" (YDict []) ;;
  geolocation <- lift (load_from_json geo_field) ;;
  private <- get_default yaml_data "private" (YBool false) ;;
  ret (MirrorData.mk name update_frequency sponsor_name sponsor_url email
         urls subnets asn cloud_type cloud_region geolocation private).

Definition get_mirror_config (path_to_config : string)
    : M unit (option MainConfig.t) :=
  let path_to_json_schema :=
    Py.os_path_join module_dir ["json_schemas/mirror_config.json"] in
  mirror_data <- lift (load_yaml path_to_config) ;;
  json_schema <- lift (load_json_schema path_to_json_schema) ;;
  v <- config_validation mirror_data json_schema ;;
  let (is_valid, err_msg) := v in
  if negb is_valid then
    log ERROR
      ("Mirror config " ++ Py.q "%s" ++ " is invalid because " ++ Py.q "%s")
      [ArgStr (path_name path_to_config); msg_arg err_msg] ;;
    ret None
  else
    p <- process_main_config mirror_data ;;
    let (config, err_msg) := p in
    if truthy err_msg then
      log ERROR
        ("Mirror config " ++ Py.q "%s" ++ " is invalid because " ++
         Py.q "%s")
        [ArgStr (path_name path_to_config); msg_arg err_msg] ;;
      ret None
    else ret config.

(** The loop of [get_mirrors_info] over the paths found, with the list
    gathered so far. *)
Fixpoint collect (paths : list string) (result : list MainConfig.t)
    : M unit (list MainConfig.t) :=
  match paths with
  | [] => ret result
  | config_path :: rest =>
      mirror_info <- get_mirror_config config_path ;;
      match mirror_info with
      | Some info => collect rest (result ++ [info])
      | None => collect rest result
      end
  end.

Definition get_mirrors_info (mirrors_dir : string)
    : M unit (list MainConfig.t) :=
  collect (rglob mirrors_dir "*.yml") [].

End Loaders.

(** Documents to run the loaders on. *)
Module Example.

(** A service configuration with one repo, given by the entries of the
    repo besides its name and path. *)
Definition service (repo_entries : list (string * yaml)) : yaml :=
  YDict
    [ ("allowed_outdate", YStr "25h");
      ("mirrors_dir", YStr "mirrors.d");
      ("versions", YList [YStr "8"]);
      ("duplicated_versions", YDict []);
      ("arches", YList [YStr "x86_64"; YStr "aarch64"]);
      ("required_protocols", YList [YStr "https"]);
      ("repos",
       YList
         [ YDict
             (("name", YStr "baseos")
              :: ("path", YStr "BaseOS/$basearch/os")
              :: repo_entries)%list ]) ].

(** The repo names an architecture as its version. *)
Definition arch_as_version : yaml :=
  service [("versions", YList [YStr "x86_64"])].

(** The repo names version 8, which the service lists. *)
Definition listed_version : yaml :=
  service [("versions", YList [YInt 8])].

(** A mirror descriptor with the keys [process_mirror_config] reads. *)
Definition mirror (host : string) : yaml :=
  YDict
    [ ("name", YStr host);
      ("address", YDict [("https", YStr ("https://" ++ host ++ "/almalinux"))]);
      ("update_frequency", YStr "1h");
      ("sponsor", YStr "Example");
      ("sponsor_url", YStr "https://example.com") ].

(** A descriptor without its name. *)
Definition nameless : yaml :=
  YDict [ ("address", YDict [("https", YStr "https://c.example.com")]) ].

(** A directory of three descriptors, one of them invalid. *)
Definition files : list (string * yaml) :=
  [ ("mirrors.d/c.example.com.yml", nameless);
    ("mirrors.d/a.example.com.yml", mirror "a.example.com");
    ("mirrors.d/b.example.com.yml", mirror "b.example.com") ].

Definition load_yaml (path : string) : res yaml :=
  match find (fun f => String.eqb path (fst f)) files with
  | Some f => Ret (snd f)
  | None => Raise OSError
  end.

Definition rglob (dir pattern : string) : list string := map fst files.

(** A schema as the list of the keys it requires of a mapping. *)
Definition schema : Type := list string.

Definition load_json_schema (path : string) : res schema :=
  Ret ["name"; "address"; "update_frequency"; "sponsor"; "sponsor_url"].

Definition validate (instance : yaml) (required : schema) : res unit :=
  match instance with
  | YDict entries =>
      match find (fun k => negb (Py.contains (map fst entries) k)) required with
      | Some k =>
          Raise (ValidationError ("'" ++ k ++ "' is a required property"))
      | None => Ret tt
      end
  | _ => Raise (ValidationError "instance is not of type 'object'")
  end.

End Example.

End Config.

(** * Properties *)

(** ** Events *)

Lemma gets_app (a b : list event) : gets (a ++ b) = gets a ++ gets b.
Proof.
  induction a as [|e a IH]; simpl; [reflexivity|].
  destruct e; simpl; rewrite IH; reflexivity.
Qed.

Lemma requested_app (a b : list event) :
  requested (a ++ b) = requested a ++ requested b.
Proof. unfold requested. rewrite gets_app, map_app. reflexivity. Qed.

(** ** Silent steps *)

Lemma bind_ret_silent {S A B} (m : M S A) (f : A -> M S B) a s :
  m s = (Ret a, s, []) -> bind m f s = f a s.
Proof.
  intros H. unfold bind. rewrite H.
  destruct (f a s) as [[r s2] ev2]. reflexivity.
Qed.

Lemma bind_raise_silent {S A B} (m : M S A) (f : A -> M S B) e s :
  m s = (Raise e, s, []) -> bind m f s = (Raise e, s, []).
Proof. intros H. unfold bind. rewrite H. reflexivity. Qed.

(** ** The loops of the probe *)

Section ProbeLoops.

Import Probe.

Variable session : Type.
Variable http_get : session -> request -> reply * session.

Let check_repo := check_repo session http_get.
Let for_pairs := for_pairs session http_get.
Let for_repos := for_repos session http_get.
Let for_versions := for_versions session http_get.

(** With no architecture at hand the body raises before any request. *)
Lemma check_repo_stuck n u v r a s :
  or_list (RepoData.arches r) a = [] ->
  check_repo n u v r a s = (Raise IndexError, s, []).
Proof.
  intros H. unfold check_repo, Probe.check_repo, bind, lift.
  rewrite H. reflexivity.
Qed.

(** With one, it sends one request, and the reply decides: it goes on, it
    logs an error and returns, or it lets the exception through. *)
Lemma check_repo_run n u v r a s arch tl :
  or_list (RepoData.arches r) a = arch :: tl ->
  let rq := check_request u v r arch in
  let rp := fst (http_get s rq) in
  exists logs,
    gets logs = [] /\
    length (errors logs) = match outcome rp with
                           | Ret false => 1
                           | _ => 0
                           end /\
    (outcome rp <> Ret false -> logs = []) /\
    check_repo n u v r a s =
      (match outcome rp with
       | Ret true => Ret (Next (arch :: tl))
       | Ret false => Ret (Return (n, false))
       | Raise e => Raise e
       end, snd (http_get s rq), Get rq rp :: logs).
Proof.
  intros H rq rp. subst rp.
  unfold check_repo, Probe.check_repo, bind, lift, try_except, get.
  rewrite H. cbn [item0]. fold (check_request u v r arch). fold rq.
  destruct (http_get s rq) as [rp s'] eqn:E. cbn [fst snd].
  destruct rp as [code|e]; cbn [outcome].
  - destruct (code =? 200)%Z; cbn.
    + exists []. repeat apply conj; try reflexivity.
    + eexists. repeat apply conj; [| | |reflexivity];
        [reflexivity|reflexivity|intros H0; contradiction].
  - destruct e; cbn;
      first
        [ exists []; repeat apply conj; reflexivity
        | eexists; repeat apply conj; [| | |reflexivity];
          [reflexivity|reflexivity|intros H0; contradiction] ].
Qed.

Lemma for_pairs_app n u p1 p2 a s :
  for_pairs n u (p1 ++ p2) a s =
  and_then (for_pairs n u p1 a) (for_pairs n u p2) s.
Proof.
  revert a s. induction p1 as [|[v r] p1 IH]; intros a s.
  - cbn. unfold and_then, bind, ret.
    destruct (for_pairs n u p2 a s) as [[x s2] ev2]. reflexivity.
  - cbn [app]. unfold for_pairs in *. cbn [Probe.for_pairs].
    unfold and_then, bind in *.
    destruct (Probe.check_repo session http_get n u v r a s)
      as [[[fl|e] s1] ev1]; [|reflexivity].
    destruct fl as [a1|vd].
    + rewrite IH.
      destruct (Probe.for_pairs session http_get n u p1 a1 s1)
        as [[[fl2|e2] s2] ev2]; [|reflexivity].
      destruct fl2 as [a2|vd2].
      * destruct (Probe.for_pairs session http_get n u p2 a2 s2)
          as [[x s3] ev3].
        rewrite app_assoc. reflexivity.
      * cbn. rewrite app_assoc. reflexivity.
    + cbn. rewrite !app_nil_r. reflexivity.
Qed.

Lemma for_repos_pairs n u v repos a s :
  for_repos n u v repos a s = for_pairs n u (map (pair v) repos) a s.
Proof.
  revert a s. induction repos as [|r repos IH]; intros a s; [reflexivity|].
  unfold for_repos, for_pairs in *.
  cbn [map Probe.for_repos Probe.for_pairs]. unfold bind.
  destruct (Probe.check_repo session http_get n u v r a s)
    as [[[fl|e] s1] ev1]; [|reflexivity].
  destruct fl as [a1|vd]; [|reflexivity].
  rewrite IH. reflexivity.
Qed.

(** The nested loops go through the cross product, versions first. *)
Lemma for_versions_pairs n u versions repos a s :
  for_versions n u versions repos a s =
  for_pairs n u (list_prod versions repos) a s.
Proof.
  revert a s. induction versions as [|v versions IH]; intros a s;
    [reflexivity|].
  cbn [list_prod]. rewrite for_pairs_app.
  unfold for_versions in *. cbn [Probe.for_versions].
  unfold and_then, bind.
  fold (for_repos n u v repos a s). rewrite for_repos_pairs.
  destruct (for_pairs n u (map (pair v) repos) a s)
    as [[[fl|e] s1] ev1]; [|reflexivity].
  destruct fl as [a1|vd]; [|reflexivity].
  rewrite IH. reflexivity.
Qed.

(** Every run of the loop is a run of the relation. *)
Lemma for_pairs_runs n u pairs a s :
  loop_run session http_get n u pairs a s (for_pairs n u pairs a s).
Proof.
  revert a s. induction pairs as [|[v r] rest IH]; intros a s.
  - apply run_done.
  - unfold for_pairs in *. cbn [Probe.for_pairs]. unfold bind.
    destruct (or_list (RepoData.arches r) a) as [|arch tl] eqn:E.
    + fold (check_repo n u v r a s).
      rewrite (check_repo_stuck n u v r a s E).
      apply run_stuck. exact E.
    + fold (check_repo n u v r a s).
      destruct (check_repo_run n u v r a s arch tl E)
        as (logs & Hl & _ & Hnil & ->).
      destruct (outcome (fst (http_get s (check_request u v r arch))))
        as [[|]|e] eqn:Hout.
      * specialize (IH (arch :: tl)
          (snd (http_get s (check_request u v r arch)))).
        destruct (Probe.for_pairs session http_get n u rest (arch :: tl)
                    (snd (http_get s (check_request u v r arch))))
          as [[x s2] ev2].
        rewrite Hnil by discriminate. cbn [app].
        eapply run_pass; eassumption.
      * cbn. rewrite app_nil_r. eapply run_fail; eassumption.
      * rewrite Hnil by discriminate. eapply run_escape; eassumption.
Qed.

Let loop_run := loop_run session http_get.

Lemma ok_outcome (rp : reply) : ok_reply rp = true <-> outcome rp = Ret true.
Proof.
  destruct rp as [code|e]; cbn.
  - split; [intros ->; reflexivity|intros H; injection H; auto].
  - destruct (caught e); split; discriminate.
Qed.

Lemma not_ok_outcome (rp : reply) :
  ok_reply rp = false <->
  outcome rp = Ret false \/ exists e, outcome rp = Raise e.
Proof.
  destruct rp as [code|e]; cbn.
  - destruct (code =? 200)%Z; split; intros H; auto; try discriminate.
    destruct H as [H|[e H]]; discriminate.
  - destruct (caught e); split; intros H; eauto.
Qed.



(** A run that returns has just got a reply that fails, after replies that
    all passed. *)
Lemma run_return_failed n u pairs a s out vd :
  loop_run n u pairs a s out ->
  result out = Ret (Return vd) ->
  vd = (n, false) /\
  exists front g,
    gets (events out) = front ++ [g] /\ ok_reply (snd g) = false /\
    outcome (snd g) = Ret false /\
    Forall (fun g => ok_reply (snd g) = true) front.
Proof.
  induction 1 as [a s|v r rest a s E|v r rest a s arch tl logs E Hok Hl
                 |v r rest a s arch tl e E Hesc
                 |v r rest a s arch tl x s' ev E Hok _ IH];
    intros Hr; unfold events, result in *; cbn in *.
  - discriminate.
  - discriminate.
  - injection Hr as <-. split; [reflexivity|].
    exists [], (check_request u v r arch,
                fst (http_get s (check_request u v r arch))).
    rewrite Hl. repeat apply conj; try reflexivity.
    + apply not_ok_outcome. left. exact Hok.
    + exact Hok.
    + constructor.
  - discriminate.
  - destruct (IH Hr) as (-> & front & g & Hg & Hbad & Hout & Hall).
    split; [reflexivity|].
    exists ((check_request u v r arch,
             fst (http_get s (check_request u v r arch))) :: front), g.
    rewrite Hg. repeat apply conj; try reflexivity; try assumption.
    constructor; [apply ok_outcome; exact Hok|exact Hall].
Qed.

(** A run that falls through has asked for the whole plan, one request for
    each pair, and every reply passed. *)
Lemma run_next_all n u pairs a s out a' :
  loop_run n u pairs a s out ->
  result out = Ret (Next a') ->
  requested (events out) = plan u pairs a /\
  length (gets (events out)) = length pairs /\
  Forall (fun g => ok_reply (snd g) = true) (gets (events out)).
Proof.
  induction 1 as [a s|v r rest a s E|v r rest a s arch tl logs E Hok Hl
                 |v r rest a s arch tl e E Hesc
                 |v r rest a s arch tl x s' ev E Hok _ IH];
    intros Hr; unfold events, result, requested in *; cbn in *.
  - repeat split. constructor.
  - discriminate.
  - discriminate.
  - discriminate.
  - destruct (IH Hr) as (Hp & Hlen & Hall). rewrite E.
    repeat split.
    + rewrite Hp. reflexivity.
    + rewrite Hlen. reflexivity.
    + constructor; [apply ok_outcome; exact Hok|exact Hall].
Qed.

(** A run that raises has either run out of an architecture, in its first
    round and before any request, or got from its last request, after
    replies that all passed, an exception the probe does not catch. *)
Lemma run_raise n u pairs a s out e :
  loop_run n u pairs a s out ->
  result out = Raise e ->
  (e = IndexError /\ events out = [] /\
   exists v r rest,
     pairs = (v, r) :: rest /\ or_list (RepoData.arches r) a = []) \/
  (exists front rq,
     gets (events out) = front ++ [(rq, Throws e)] /\ caught e = false /\
     Forall (fun g => ok_reply (snd g) = true) front).
Proof.
  intros H. revert e.
  assert (Hesc : forall rp e, outcome rp = Raise e ->
                   rp = Throws e /\ caught e = false).
  { intros [code|e0] e0'; cbn; [discriminate|].
    destruct (caught e0) eqn:Ec; [discriminate|].
    intros H0. injection H0 as <-. split; [reflexivity|exact Ec]. }
  induction H as [a s|v r rest a s E|v r rest a s arch tl logs E Hok Hl
                 |v r rest a s arch tl e0 E Hesc0
                 |v r rest a s arch tl x s' ev E Hok Hrest IH];
    intros e Hr; unfold result, events in *; cbn in *.
  - discriminate.
  - injection Hr as <-. left. repeat split. exists v, r, rest. split; auto.
  - discriminate.
  - injection Hr as <-. right.
    destruct (Hesc _ _ Hesc0) as [Hrp Hc].
    exists [], (check_request u v r arch). rewrite Hrp.
    repeat apply conj; [reflexivity|exact Hc|constructor].
  - destruct (IH e Hr) as [(_ & _ & v' & r' & rest' & -> & Hor)
                          |(front & rq & Hg & Hc & Hall)].
    + exfalso. destruct (RepoData.arches r'); cbn in Hor; discriminate.
    + right.
      exists ((check_request u v r arch,
               fst (http_get s (check_request u v r arch))) :: front), rq.
      rewrite Hg. repeat apply conj; [reflexivity|exact Hc|].
      constructor; [apply ok_outcome; exact Hok|exact Hall].
Qed.

(** The requests of a run were answered by the session one after the
    other, and the run leaves the session the last of them left. *)
Lemma run_replay n u pairs a s out :
  loop_run n u pairs a s out ->
  gets (events out) = replay http_get s (map fst (gets (events out))) /\
  final out = after http_get s (map fst (gets (events out))).
Proof.
  induction 1 as [a s|v r rest a s E|v r rest a s arch tl logs E Hok Hl
                 |v r rest a s arch tl e E Hesc
                 |v r rest a s arch tl x s' ev E Hok _ IH];
    unfold events, final in *; cbn in *.
  - split; reflexivity.
  - split; reflexivity.
  - rewrite Hl. cbn. split; reflexivity.
  - split; reflexivity.
  - destruct IH as [IH1 IH2]. rewrite <- IH1, <- IH2. split; reflexivity.
Qed.

(** A run sends at most one request for each pair. *)
Lemma run_length n u pairs a s out :
  loop_run n u pairs a s out ->
  length (gets (events out)) <= length pairs.
Proof.
  induction 1 as [a s|v r rest a s E|v r rest a s arch tl logs E Hok Hl
                 |v r rest a s arch tl e E Hesc
                 |v r rest a s arch tl x s' ev E Hok _ IH];
    unfold events in *; cbn in *.
  - lia.
  - lia.
  - rewrite Hl. cbn. lia.
  - lia.
  - lia.
Qed.

(** A run whose first round has an architecture starts with the request of
    that round. *)
Lemma run_first n u v r rest a s out arch tl :
  loop_run n u ((v, r) :: rest) a s out ->
  or_list (RepoData.arches r) a = arch :: tl ->
  exists rp back,
    gets (events out) = (check_request u v r arch, rp) :: back.
Proof.
  intros H E0.
  inversion H as [|? ? ? ? ? E|? ? ? ? ? arch' tl' logs E Hbad Hl
                 |? ? ? ? ? arch' tl' e E Hesc
                 |? ? ? ? ? arch' tl' x s' ev E Hok Hrest]; subst;
    rewrite E0 in E; try discriminate; injection E as <- <-;
    unfold events; cbn; eauto.
Qed.

(** The request with number [length before] of a run is the one of the pair
    after [before]; when its reply passes and its repo has arches, the next
    pair, of a repo with none, is asked for with the first of them. *)
Lemma run_adjacent n u pairs a s out :
  loop_run n u pairs a s out ->
  forall before v r1 v' r2 rest a1 tl front g back,
    pairs = before ++ (v, r1) :: (v', r2) :: rest ->
    RepoData.arches r1 = a1 :: tl ->
    RepoData.arches r2 = [] ->
    gets (events out) = front ++ g :: back ->
    length front = length before ->
    ok_reply (snd g) = true ->
    fst g = check_request u v r1 a1 /\
    exists rp back', back = (check_request u v' r2 a1, rp) :: back'.
Proof.
  induction 1 as [a s|v0 r0 rest0 a s E|v0 r0 rest0 a s arch tl0 logs E Hok Hl
                 |v0 r0 rest0 a s arch tl0 e E Hesc
                 |v0 r0 rest0 a s arch tl0 x s' ev E Hok Hrest IH];
    intros before v r1 v' r2 rest a1 tl front g back Hp H1 H2 Hg Hlen Hpass;
    unfold events in *; cbn [snd gets] in *.
  - destruct before; discriminate.
  - destruct front; discriminate.
  - exfalso. rewrite Hl in Hg. destruct front as [|f [|f' front]];
      try discriminate.
    injection Hg as <- _. cbn in Hpass. apply ok_outcome in Hpass. congruence.
  - exfalso. destruct front as [|f [|f' front]]; try discriminate.
    injection Hg as <- _. cbn in Hpass. apply ok_outcome in Hpass. congruence.
  - destruct before as [|b before]; destruct front as [|f front];
      try discriminate.
    + cbn in Hp. injection Hp as -> -> ->. injection Hg as <- <-.
      rewrite H1 in E. cbn in E. injection E as <- <-.
      split; [reflexivity|].
      apply (run_first _ _ _ _ _ _ _ _ a1 tl Hrest).
      rewrite H2. reflexivity.
    + cbn in Hp. injection Hp as _ ->. injection Hg as _ Hg.
      cbn in Hlen. injection Hlen as Hlen.
      exact (IH before v r1 v' r2 rest a1 tl front g back eq_refl H1 H2 Hg
               Hlen Hpass).
Qed.

(** A run against the answers the session gives to the requests of the
    plan, sent one after the other: the requests of the run with their
    replies are a head of these answers; the run stops at the first answer
    that does not pass, with [false] or with the exception of that answer;
    and when every answer passes the run gets them all, and falls through
    when the plan has a request for every pair. *)
Lemma run_answers n u pairs a s out :
  loop_run n u pairs a s out ->
  let answers := replay http_get s (planned u pairs a) in
  (exists k, gets (events out) = firstn k answers) /\
  (forall front g back,
     answers = front ++ g :: back ->
     Forall (fun g => ok_reply (snd g) = true) front ->
     ok_reply (snd g) = false ->
     gets (events out) = front ++ [g] /\
     result out = match outcome (snd g) with
                  | Ret _ => Ret (Return (n, false))
                  | Raise e => Raise e
                  end) /\
  (Forall (fun g => ok_reply (snd g) = true) answers ->
   gets (events out) = answers /\
   (length (plan u pairs a) = length pairs ->
    exists a', result out = Ret (Next a')) /\
   (length (plan u pairs a) <> length pairs ->
    result out = Raise IndexError)).
Proof.
  induction 1 as [a s|v r rest a s E|v r rest a s arch tl logs E Hok Hl
                 |v r rest a s arch tl e E Hesc
                 |v r rest a s arch tl x s' ev E Hok _ IH];
    unfold planned in *; cbn [plan]; rewrite ?E; cbn [map replay];
    unfold events, result in *; cbn [fst snd gets] in *.
  - repeat apply conj.
    + exists 0. reflexivity.
    + intros front g back Hf. destruct front; discriminate.
    + intros _. repeat apply conj; [reflexivity|eauto|].
      intros Hne. contradiction.
  - repeat apply conj.
    + exists 0. reflexivity.
    + intros front g back Hf. destruct front; discriminate.
    + intros _. repeat apply conj; [reflexivity| |reflexivity].
      cbn. discriminate.
  - fold (check_request u v r arch). rewrite Hl. repeat apply conj.
    + exists 1. reflexivity.
    + intros front g back Hf Hall Hbad.
      destruct front as [|f front]; cbn in Hf.
      * injection Hf as <- _. cbn. rewrite Hok. split; reflexivity.
      * injection Hf as <- _. inversion Hall as [|? ? Hf0 _]; subst.
        cbn in Hf0. apply ok_outcome in Hf0. congruence.
    + intros Hall. inversion Hall as [|? ? Hf0 _]; subst.
      cbn in Hf0. apply ok_outcome in Hf0. congruence.
  - fold (check_request u v r arch). repeat apply conj.
    + exists 1. reflexivity.
    + intros front g back Hf Hall Hbad.
      destruct front as [|f front]; cbn in Hf.
      * injection Hf as <- _. cbn. rewrite Hesc. split; reflexivity.
      * injection Hf as <- _. inversion Hall as [|? ? Hf0 _]; subst.
        cbn in Hf0. apply ok_outcome in Hf0. congruence.
    + intros Hall. inversion Hall as [|? ? Hf0 _]; subst.
      cbn in Hf0. apply ok_outcome in Hf0. congruence.
  - fold (check_request u v r arch).
    cbv zeta in IH. destruct IH as (IH1 & IH2 & IH3). repeat apply conj.
    + destruct IH1 as [k IH1]. exists (S k). cbn. rewrite IH1. reflexivity.
    + intros front g back Hf Hall Hbad.
      destruct front as [|f front]; cbn in Hf.
      * injection Hf as <- _. cbn in Hbad.
        apply ok_outcome in Hok. congruence.
      * injection Hf as <- Hf. inversion Hall as [|? ? _ Hall']; subst.
        destruct (IH2 front g back Hf Hall' Hbad) as [I1 I2].
        rewrite I1. split; [reflexivity|exact I2].
    + intros Hall. inversion Hall as [|? ? _ Hall']; subst.
      destruct (IH3 Hall') as (I1 & I2 & I3). rewrite I1.
      repeat apply conj; [reflexivity| |].
      * intros Hlen. apply I2. cbn in Hlen. lia.
      * intros Hlen. apply I3. cbn in Hlen. lia.
Qed.

Let mirror_available := mirror_available session http_get.

Lemma mirror_available_private m versions repos a req s :
  MirrorData.private m = true ->
  result (mirror_available m versions repos a req s)
    = Ret (MirrorData.name m, true) /\
  gets (events (mirror_available m versions repos a req s)) = [] /\
  final (mirror_available m versions repos a req s) = s.
Proof.
  intros Hp. unfold mirror_available, Probe.mirror_available.
  rewrite Hp. repeat split.
Qed.

Lemma mirror_available_no_address m versions repos a req s :
  MirrorData.private m = false ->
  next_address (MirrorData.urls m) req = Raise StopIteration ->
  result (mirror_available m versions repos a req s)
    = Ret (MirrorData.name m, false) /\
  gets (events (mirror_available m versions repos a req s)) = [] /\
  final (mirror_available m versions repos a req s) = s.
Proof.
  intros Hp Hn. unfold mirror_available, Probe.mirror_available.
  rewrite Hp, Hn. repeat split.
Qed.

(** With an address, the probe is the loop over the cross product: it
    sends the requests of the loop, and its verdict is [false] where the
    loop returns and [true] where it falls through. *)
Lemma mirror_available_loop m versions repos a req s u :
  MirrorData.private m = false ->
  next_address (MirrorData.urls m) req = Ret u ->
  let run := mirror_available m versions repos a req s in
  let lp := for_pairs (MirrorData.name m) u (list_prod versions repos) a s in
  result run =
    match result lp with
    | Ret (Next _) => Ret (MirrorData.name m, true)
    | Ret (Return v) => Ret v
    | Raise e => Raise e
    end /\
  gets (events run) = gets (events lp) /\
  final run = final lp.
Proof.
  intros Hp Hn. cbv zeta.
  unfold mirror_available, Probe.mirror_available.
  rewrite Hp, Hn. unfold bind, log.
  fold (for_versions (MirrorData.name m) u versions repos a s).
  rewrite for_versions_pairs.
  destruct (for_pairs (MirrorData.name m) u (list_prod versions repos) a s)
    as [[[fl|e] s1] ev1]; unfold result, events, final; cbn.
  - destruct fl as [a1|vd]; cbn; rewrite ?gets_app; cbn;
      rewrite ?app_nil_r; repeat split.
  - repeat split.
Qed.


End ProbeLoops.

(** ** Choosing the address *)

Lemma contains_In (xs : list string) (x : string) :
  Py.contains xs x = true <-> In x xs.
Proof.
  unfold Py.contains. rewrite existsb_exists. split.
  - intros (y & Hy & E). apply String.eqb_eq in E. subst. exact Hy.
  - intros H. exists x. split; [exact H|apply String.eqb_refl].
Qed.

Lemma next_address_first urls req before k address after :
  urls = before ++ (k, address) :: after ->
  In k req ->
  (forall k' a', In (k', a') before -> ~ In k' req) ->
  Probe.next_address urls req = Ret address.
Proof.
  intros -> Hk. induction before as [|[k' a'] before IH]; intros Hb; cbn.
  - apply contains_In in Hk. rewrite Hk. reflexivity.
  - destruct (Py.contains req k') eqn:E.
    + apply contains_In in E. exfalso. apply (Hb k' a'); [left|]; auto.
    + apply IH. intros k2 a2 H2. apply (Hb k2 a2). right. exact H2.
Qed.

Lemma next_address_none urls req :
  (forall k a, In (k, a) urls -> ~ In k req) ->
  Probe.next_address urls req = Raise StopIteration.
Proof.
  induction urls as [|[k a] urls IH]; intros H; cbn; [reflexivity|].
  destruct (Py.contains req k) eqn:E.
  - apply contains_In in E. exfalso. apply (H k a); [left|]; auto.
  - apply IH. intros k2 a2 H2. apply (H k2 a2). right. exact H2.
Qed.

Lemma next_address_cases urls req :
  (exists u, Probe.next_address urls req = Ret u) \/
  Probe.next_address urls req = Raise StopIteration.
Proof.
  induction urls as [|[k a] urls IH]; cbn; [right; reflexivity|].
  destruct (Py.contains req k); [left; eexists; reflexivity|exact IH].
Qed.

(** ** The plan *)



Lemma list_prod_nil_r {A B} (l : list A) : list_prod l (@nil B) = [].
Proof. induction l; cbn; auto. Qed.

Lemma list_prod_app_l {A B} (l1 l2 : list A) (l : list B) :
  list_prod (l1 ++ l2) l = list_prod l1 l ++ list_prod l2 l.
Proof.
  induction l1 as [|x l1 IH]; [reflexivity|].
  cbn. rewrite IH, app_assoc. reflexivity.
Qed.

Lemma or_list_nil x y : Probe.or_list x y = [] <-> x = [] /\ y = [].
Proof.
  destruct x; cbn; split.
  - intros ->. split; reflexivity.
  - intros [_ ->]. reflexivity.
  - discriminate.
  - intros [H _]. discriminate.
Qed.



(** ** Relabelled replies *)


(** ** Joined paths *)

Lemma append_assoc (a b c : string) :
  ((a ++ b) ++ c = a ++ (b ++ c))%string.
Proof. induction a as [|x a IH]; cbn; [reflexivity|]. rewrite IH. reflexivity. Qed.

Lemma append_not_empty (a b : string) :
  b <> EmptyString -> (a ++ b)%string <> EmptyString.
Proof. destruct a; cbn; [auto|discriminate]. Qed.

Lemma endswith_sep_append (a b : string) :
  b <> EmptyString ->
  Py.endswith_sep (a ++ b) = Py.endswith_sep b.
Proof.
  intros Hb. induction a as [|x a IH]; [reflexivity|].
  cbn [append Py.endswith_sep].
  destruct (a ++ b)%string eqn:E.
  - exfalso. exact (append_not_empty a b Hb E).
  - exact IH.
Qed.

Lemma join_step_plain (path b : string) :
  path <> EmptyString -> Py.endswith_sep path = false ->
  Py.startswith b "/" = false ->
  Py.join_step path b = (path ++ "/" ++ b)%string.
Proof.
  intros Hp He Hb. unfold Py.join_step. rewrite Hb, He.
  destruct (String.eqb_spec path ""); [contradiction|reflexivity].
Qed.

Lemma prefix_append (old b : string) : String.prefix old (old ++ b) = true.
Proof.
  induction old as [|c old IH]; cbn.
  - destruct b; reflexivity.
  - destruct (ascii_dec c c) as [_|Hc]; [exact IH|contradiction].
Qed.

Lemma startswith_sep (s : string) :
  Py.startswith s "/" = true -> exists rest, s = String "/" rest.
Proof.
  unfold Py.startswith. destruct s as [|c rest]; [discriminate|].
  unfold String.prefix.
  destruct (ascii_dec "/" c) as [<-|]; [|discriminate].
  intros _. exists rest. reflexivity.
Qed.







(** ** Answers *)


(** Either every reply of a list passes, or there is a first one that does
    not. *)
Lemma first_not_ok (l : list (request * reply)) :
  Forall (fun g => Probe.ok_reply (snd g) = true) l \/
  exists front g back,
    l = front ++ g :: back /\
    Forall (fun g => Probe.ok_reply (snd g) = true) front /\
    Probe.ok_reply (snd g) = false.
Proof.
  induction l as [|x l IH]; [left; constructor|].
  destruct (Probe.ok_reply (snd x)) eqn:E.
  - destruct IH as [IH|(front & g & back & -> & Hf & Hb)].
    + left. constructor; assumption.
    + right. exists (x :: front), g, back.
      repeat apply conj; [reflexivity| |exact Hb].
      constructor; assumption.
  - right. exists [], x, l. repeat apply conj; [reflexivity| |exact E].
    constructor.
Qed.

(** ** The probe *)

Section ProbeClaims.

Import Probe.

Variable session : Type.
Variable http_get : session -> request -> reply * session.

Let probe := mirror_available session http_get.

(** C5. A private mirror is reported available, [(name, true)], without
    any request to the network and without touching the session, whatever
    its urls, the required protocols, the versions and the repos. *)
Theorem private_mirror_is_not_checked m versions repos arches req s :
  MirrorData.private m = true ->
  result (probe m versions repos arches req s) = Ret (MirrorData.name m, true)
  /\ gets (events (probe m versions repos arches req s)) = []
  /\ final (probe m versions repos arches req s) = s.
Proof.
  intros Hp. subst probe.
  destruct (mirror_available_private session http_get m versions repos
              arches req s Hp) as (Hr & Hg & Hf).
  split; [exact Hr|]. split; [exact Hg|exact Hf].
Qed.

(** C6. For a mirror that is not private, the base URL is the address of
    the first key of [urls], in the order of the mapping, that is among the
    required protocols: the requests of the probe, with their replies, are
    a head of the answers the session gives to the requests planned from
    that address, and the probe stops short of the plan only after an
    answer that does not pass.  When no key of [urls] is among the required
    protocols the probe returns [(name, false)] without any request. *)
Theorem first_matching_key_gives_base_url m versions repos arches req s :
  MirrorData.private m = false ->
  (forall before k address after,
     MirrorData.urls m = before ++ (k, address) :: after ->
     In k req ->
     (forall k' a', In (k', a') before -> ~ In k' req) ->
     let answers :=
       replay http_get s (planned address (list_prod versions repos) arches)
     in
     next_address (MirrorData.urls m) req = Ret address /\
     (exists n,
        gets (events (probe m versions repos arches req s))
        = firstn n answers) /\
     (gets (events (probe m versions repos arches req s)) = answers \/
      exists front g,
        gets (events (probe m versions repos arches req s)) = front ++ [g]
        /\ ok_reply (snd g) = false)) /\
  ((forall k a, In (k, a) (MirrorData.urls m) -> ~ In k req) ->
   result (probe m versions repos arches req s)
     = Ret (MirrorData.name m, false) /\
   gets (events (probe m versions repos arches req s)) = []).
Proof.
  intros Hp. split.
  - intros before k address after Hu Hk Hb answers.
    pose proof (next_address_first _ _ _ _ _ _ Hu Hk Hb) as Hn.
    split; [exact Hn|].
    destruct (mirror_available_loop session http_get m versions repos
                arches req s address Hp Hn) as (_ & Hg & _).
    pose proof (for_pairs_runs session http_get (MirrorData.name m) address
                  (list_prod versions repos) arches s) as Hrun.
    destruct (run_answers session http_get _ _ _ _ _ _ Hrun)
      as (H1 & H2 & H3).
    fold answers in H1, H2, H3.
    subst probe. rewrite Hg. split; [exact H1|].
    destruct (first_not_ok answers)
      as [Hall|(front & g & back & Hsplit & Hfront & Hbad)].
    + left. exact (proj1 (H3 Hall)).
    + right. exists front, g.
      split; [exact (proj1 (H2 front g back Hsplit Hfront Hbad))|exact Hbad].
  - intros Hnone.
    pose proof (next_address_none _ _ Hnone) as Hn.
    destruct (mirror_available_no_address session http_get m versions repos
                arches req s Hp Hn) as (Hr & Hg & _).
    split; [exact Hr|exact Hg].
Qed.

(** C9. For a mirror that is not private and has an address for a required
    protocol, an empty list of versions or an empty list of repos gives
    [(name, true)] without any request. *)
Theorem empty_cross_product_is_available m versions repos arches req s u :
  MirrorData.private m = false ->
  next_address (MirrorData.urls m) req = Ret u ->
  versions = [] \/ repos = [] ->
  result (probe m versions repos arches req s) = Ret (MirrorData.name m, true)
  /\ gets (events (probe m versions repos arches req s)) = [].
Proof.
  intros Hp Hn He.
  destruct (mirror_available_loop session http_get m versions repos
              arches req s u Hp Hn) as (Hr & Hg & _).
  assert (Hnil : list_prod versions repos = []).
  { destruct He as [->| ->]; [reflexivity|apply list_prod_nil_r]. }
  subst probe. rewrite Hr, Hg, Hnil. split; reflexivity.
Qed.



(** C10. The probe gives a verdict only if it does not run out of an
    architecture.  A round of the loop that comes to a repo with no
    [arches] while the current [arches] is empty raises [IndexError] before
    its request.  The probe raises before any request exactly when that
    happens, which is in the first round: the mirror is not private and
    has an address, there is a version, the first repo has no [arches] and
    the [arches] argument is empty; the exception is [IndexError] and only
    the first record was logged.  In every other case the probe returns
    [(name, b)], or raises the exception of its last request, which is of
    a class the probe does not catch. *)
Theorem probe_total_unless_no_arch m versions repos arches req s :
  let run := probe m versions repos arches req s in
  (forall n u v r s',
     RepoData.arches r = [] ->
     check_repo session http_get n u v r [] s' = (Raise IndexError, s', []))
  /\
  ((exists e, result run = Raise e /\ gets (events run) = []) <->
   no_arch m versions repos arches req) /\
  (no_arch m versions repos arches req ->
   result run = Raise IndexError /\
   events run = [Log INFO
     ("Checking mirror " ++ Py.q "%s" ++ "...") [ArgStr (MirrorData.name m)]])
  /\
  (~ no_arch m versions repos arches req ->
   (exists b, result run = Ret (MirrorData.name m, b)) \/
   (exists e front rq,
      result run = Raise e /\ caught e = false /\
      gets (events run) = front ++ [(rq, Throws e)])).
Proof.
  intros run.
  assert (Hstuck : no_arch m versions repos arches req ->
            result run = Raise IndexError /\
            events run = [Log INFO ("Checking mirror " ++ Py.q "%s" ++ "...")
                            [ArgStr (MirrorData.name m)]]).
  { intros (Hp & (u & Hn) & Hv & r & rest & -> & Hr & ->).
    destruct versions as [|v vs]; [contradiction|].
    subst run probe. unfold mirror_available. rewrite Hp, Hn.
    cbn [for_versions for_repos]. unfold bind, log, check_repo, lift.
    rewrite Hr. cbn. split; reflexivity. }
  assert (Hcases :
            (exists b, result run = Ret (MirrorData.name m, b)) \/
            (exists e front rq,
               result run = Raise e /\ caught e = false /\
               gets (events run) = front ++ [(rq, Throws e)]) \/
            (result run = Raise IndexError /\ gets (events run) = [] /\
             no_arch m versions repos arches req)).
  { subst run probe. destruct (MirrorData.private m) eqn:Hp.
    - left. exists true.
      exact (proj1 (mirror_available_private session http_get m versions
                      repos arches req s Hp)).
    - destruct (next_address_cases (MirrorData.urls m) req) as [[u Hn]|Hn].
      + destruct (mirror_available_loop session http_get m versions repos
                    arches req s u Hp Hn) as (Hr & Hg & _).
        pose proof (for_pairs_runs session http_get (MirrorData.name m) u
                      (list_prod versions repos) arches s) as Hrun.
        rewrite Hr, Hg.
        destruct (result (for_pairs session http_get (MirrorData.name m) u
                            (list_prod versions repos) arches s))
          as [[a1|vd]|e'] eqn:E.
        * left. exists true. reflexivity.
        * destruct (run_return_failed _ _ _ _ _ _ _ _ _ Hrun E) as [-> _].
          left. exists false. reflexivity.
        * destruct (run_raise _ _ _ _ _ _ _ _ _ Hrun E)
            as [(-> & Hev & v & r & rest & Hpairs & Hor)
               |(front & rq & Hgs & Hc & _)].
          -- right. right. split; [reflexivity|].
             split; [rewrite Hev; reflexivity|].
             apply or_list_nil in Hor. destruct Hor as [Hr0 Ha].
             split; [exact Hp|]. split; [exists u; exact Hn|].
             destruct versions as [|v0 vs]; [discriminate|].
             split; [discriminate|].
             destruct repos as [|r0 rs].
             ++ cbn in Hpairs. rewrite list_prod_nil_r in Hpairs.
                discriminate.
             ++ cbn in Hpairs. injection Hpairs as _ <- _.
                exists r0, rs. repeat split; assumption.
          -- right. left. exists e', front, rq.
             repeat apply conj; [reflexivity|exact Hc|exact Hgs].
      + left. exists false.
        exact (proj1 (mirror_available_no_address session http_get m
                        versions repos arches req s Hp Hn)). }
  split; [|split; [split|split]].
  - intros n u v r s' Hr. apply check_repo_stuck.
    apply or_list_nil. split; [exact Hr|reflexivity].
  - intros (e & He & Hnone).
    destruct Hcases as [[b Hb]|[(e' & front & rq & _ & _ & Hgs)|(_ & _ & H)]].
    + congruence.
    + rewrite Hnone in Hgs. destruct front; discriminate.
    + exact H.
  - intros H. destruct (Hstuck H) as [H1 H2].
    exists IndexError. split; [exact H1|]. rewrite H2. reflexivity.
  - exact Hstuck.
  - intros Hno.
    destruct Hcases as [H|[H|(_ & _ & H)]];
      [left; exact H|right; exact H|contradiction].
Qed.

End ProbeClaims.



(** C3 fails on the code.  With the repos [extras] (arches [aarch64]) and
    then [baseos] (no arches) and the default arches [x86_64], the probe
    asks for [baseos] under [aarch64], the architecture the round before
    left in [arches], and not under [x86_64], the first of the default. *)
Theorem default_arches_are_rebound :
  requested (events (Probe.mirror_available Probe.scripted Probe.scripted_get
                       Probe.Example.mirror ["9"]
                       [Probe.Example.extras; Probe.Example.baseos]
                       ["x86_64"] ["https"] []))
  = ["https://example.com/9/extras/aarch64/os/repodata/repomd.xml";
     "https://example.com/9/aarch64/baseos/repodata/repomd.xml"] /\
  Probe.RepoData.arches Probe.Example.baseos = [] /\
  Probe.check_url "https://example.com" "9"
    (Py.replace (Probe.RepoData.path Probe.Example.baseos) "$basearch"
       "x86_64")
  = "https://example.com/9/x86_64/baseos/repodata/repomd.xml".
Proof.
  split; [|split].
  - vm_compute. reflexivity.
  - reflexivity.
  - vm_compute. reflexivity.
Qed.

(** *** The theorems at work *)

Lemma private_mirror_is_not_checked_witness :
  result (Probe.mirror_available Probe.scripted Probe.scripted_get
            Probe.Example.private_mirror ["9"] [Probe.Example.baseos]
            ["x86_64"] ["https"] [TimedOut])
    = Ret ("private", true) /\
  gets (events (Probe.mirror_available Probe.scripted Probe.scripted_get
                  Probe.Example.private_mirror ["9"] [Probe.Example.baseos]
                  ["x86_64"] ["https"] [TimedOut])) = [] /\
  final (Probe.mirror_available Probe.scripted Probe.scripted_get
           Probe.Example.private_mirror ["9"] [Probe.Example.baseos]
           ["x86_64"] ["https"] [TimedOut]) = [TimedOut].
Proof.
  exact (private_mirror_is_not_checked Probe.scripted Probe.scripted_get
           Probe.Example.private_mirror ["9"] [Probe.Example.baseos]
           ["x86_64"] ["https"] [TimedOut] eq_refl).
Defined.

Lemma first_matching_key_gives_base_url_witness :
  (let answers :=
     replay Probe.scripted_get []
       (Probe.planned "http://example.com"
          (list_prod ["9"] [Probe.Example.baseos]) ["x86_64"]) in
   Probe.next_address (Probe.MirrorData.urls Probe.Example.two_urls)
     ["https"; "http"] = Ret "http://example.com" /\
   (exists n,
      gets (events (Probe.mirror_available Probe.scripted
                      Probe.scripted_get Probe.Example.two_urls ["9"]
                      [Probe.Example.baseos] ["x86_64"] ["https"; "http"]
                      []))
      = firstn n answers) /\
   (gets (events (Probe.mirror_available Probe.scripted Probe.scripted_get
                    Probe.Example.two_urls ["9"] [Probe.Example.baseos]
                    ["x86_64"] ["https"; "http"] []))
    = answers \/
    exists front g,
      gets (events (Probe.mirror_available Probe.scripted
                      Probe.scripted_get Probe.Example.two_urls ["9"]
                      [Probe.Example.baseos] ["x86_64"] ["https"; "http"]
                      []))
      = front ++ [g] /\ Probe.ok_reply (snd g) = false)) /\
  requested (events (Probe.mirror_available Probe.scripted
                       Probe.scripted_get Probe.Example.two_urls ["9"]
                       [Probe.Example.baseos] ["x86_64"] ["https"; "http"]
                       []))
  = ["http://example.com/9/x86_64/baseos/repodata/repomd.xml"].
Proof.
  split; [|reflexivity].
  apply (proj1 (first_matching_key_gives_base_url Probe.scripted
                  Probe.scripted_get Probe.Example.two_urls ["9"]
                  [Probe.Example.baseos] ["x86_64"] ["https"; "http"] []
                  eq_refl)
           [("rsync", "rsync://example.com")] "http" "http://example.com"
           [("https", "https://example.com")]).
  - reflexivity.
  - right. left. reflexivity.
  - intros k' a' [H|[]]. injection H as <- _.
    intros [H|[H|[]]]; discriminate.
Defined.

Lemma empty_cross_product_is_available_witness :
  result (Probe.mirror_available Probe.scripted Probe.scripted_get
            Probe.Example.mirror ["8"; "9"] [] ["x86_64"] ["https"]
            [Status 404])
    = Ret ("mirror", true) /\
  gets (events (Probe.mirror_available Probe.scripted Probe.scripted_get
                  Probe.Example.mirror ["8"; "9"] [] ["x86_64"] ["https"]
                  [Status 404])) = [].
Proof.
  exact (empty_cross_product_is_available Probe.scripted Probe.scripted_get
           Probe.Example.mirror ["8"; "9"] [] ["x86_64"] ["https"]
           [Status 404] "https://example.com" eq_refl eq_refl
           (or_intror eq_refl)).
Defined.



(** ** The loaders *)

Section RepoAttributes.

Import Config.

Variable S : Type.

Lemma existsb_py_eq_str (x : string) (l : list string) :
  existsb (py_eq (YStr x)) (map YStr l) = Py.contains l x.
Proof.
  unfold Py.contains. induction l as [|y l IH]; [reflexivity|].
  cbn [map existsb]. rewrite IH. reflexivity.
Qed.

Lemma str_join_str_list sep (l : list string) (s : S) :
  str_join sep (str_list l) s = (Ret (Py.join sep l), s, []).
Proof.
  unfold str_join, str_list, iter, bind, ret.
  assert (H : forall l0,
            for_each (map YStr l0)
              (fun x => match x with
                        | YStr s0 => fun s1 : S => (Ret s0, s1, [])
                        | _ => raise TypeError
                        end) s = (Ret l0, s, [])).
  { induction l0 as [|x l0 IH]; cbn; [reflexivity|].
    unfold bind, ret. rewrite IH. reflexivity. }
  rewrite H. reflexivity.
Qed.

Lemma check_attribute_str repo_name (attributes : list string) x (s : S) :
  check_attribute repo_name (str_list attributes) (YStr x) s
  = (if Py.contains attributes x then Ret tt
     else Raise (ValidationError (absent_message x repo_name attributes)),
     s, []).
Proof.
  unfold check_attribute, bind. unfold py_in, str_list at 1, ret at 1.
  rewrite existsb_py_eq_str.
  destruct (Py.contains attributes x); cbn [negb]; [reflexivity|].
  rewrite str_join_str_list. reflexivity.
Qed.

(** The helper accepts a list of strings all found in [attributes] and
    gives it back. *)
Lemma process_repo_attributes_subset repo_name l attributes (s : S) :
  (forall x, In x l -> In x attributes) ->
  _process_repo_attributes repo_name (str_list l) (str_list attributes) s
  = (Ret (str_list l), s, []).
Proof.
  intros Hsub. unfold _process_repo_attributes, bind.
  unfold str_list at 1. cbn [iter]. unfold ret at 1.
  assert (H : exists us,
            for_each (map YStr l)
              (check_attribute repo_name (str_list attributes)) s
            = (Ret us, s, [])).
  { induction l as [|x l IH]; cbn [map for_each].
    - exists []. reflexivity.
    - destruct IH as [us IH]; [intros y Hy; apply Hsub; right; exact Hy|].
      exists (tt :: us). unfold bind. rewrite check_attribute_str.
      assert (Hx : Py.contains attributes x = true).
      { apply contains_In. apply Hsub. left. reflexivity. }
      rewrite Hx, IH. reflexivity. }
  destruct H as [us ->]. reflexivity.
Qed.

(** It raises [ValidationError] for the first string that is not. *)
Lemma process_repo_attributes_absent repo_name l1 x l2 attributes (s : S) :
  (forall y, In y l1 -> In y attributes) ->
  ~ In x attributes ->
  _process_repo_attributes repo_name (str_list (l1 ++ x :: l2))
    (str_list attributes) s
  = (Raise (ValidationError (absent_message x repo_name attributes)), s, []).
Proof.
  intros Hsub Hx. unfold _process_repo_attributes, bind.
  unfold str_list at 1. cbn [iter]. unfold ret at 1.
  assert (H :
            for_each (map YStr (l1 ++ x :: l2))
              (check_attribute repo_name (str_list attributes)) s
            = (Raise (ValidationError (absent_message x repo_name attributes)),
               s, [])).
  { induction l1 as [|y l1 IH]; cbn [app map for_each]; unfold bind;
      rewrite check_attribute_str.
    - assert (Hc : Py.contains attributes x = false).
      { destruct (Py.contains attributes x) eqn:E; [|reflexivity].
        apply contains_In in E. contradiction. }
      rewrite Hc. reflexivity.
    - assert (Hy : Py.contains attributes y = true).
      { apply contains_In. apply Hsub. left. reflexivity. }
      rewrite Hy, IH; [reflexivity|].
      intros z Hz. apply Hsub. right. exact Hz. }
  rewrite H. reflexivity.
Qed.

Lemma forallb_contains_all attributes l :
  forallb (Py.contains attributes) l = true ->
  forall x, In x l -> In x attributes.
Proof.
  intros H x Hx. rewrite forallb_forall in H.
  apply contains_In. apply H. exact Hx.
Qed.

Lemma forallb_contains_first attributes l :
  forallb (Py.contains attributes) l = false ->
  exists l1 x l2,
    l = (l1 ++ x :: l2)%list /\
    (forall y, In y l1 -> In y attributes) /\ ~ In x attributes.
Proof.
  induction l as [|y l IH]; cbn; [discriminate|].
  destruct (Py.contains attributes y) eqn:E; cbn.
  - intros H. destruct (IH H) as (l1 & x & l2 & -> & H1 & Hx).
    exists (y :: l1), x, l2. split; [reflexivity|]. split; [|exact Hx].
    intros z [<-|Hz]; [apply contains_In; exact E|apply H1; exact Hz].
  - intros _. exists [], y, l. split; [reflexivity|]. split.
    + intros z [].
    + intros Hy. apply contains_In in Hy. congruence.
Qed.

(** *** Documents of the expected shape *)

Variables (allowed_outdate mirrors_dir versions duplicated_versions : yaml).
Variable arches : list string.
Variable required_protocols : yaml.

Let service :=
  service_yaml allowed_outdate mirrors_dir versions duplicated_versions
    arches required_protocols.

Lemma getitem_repo_name r (s : S) :
  getitem (repo_yaml r) "name" s = (Ret (YStr (entry_name r)), s, []).
Proof. reflexivity. Qed.

Lemma getitem_repo_path r (s : S) :
  getitem (repo_yaml r) "path" s = (Ret (YStr (entry_path r)), s, []).
Proof. reflexivity. Qed.

Lemma get_default_repo_arches r (s : S) :
  get_default (repo_yaml r) "arches" (YList []) s
  = (Ret (str_list (arches_of r)), s, []).
Proof.
  destruct r as [n p [a|] [v|]]; reflexivity.
Qed.

Lemma get_default_repo_versions r (s : S) :
  get_default (repo_yaml r) "versions" (YList []) s
  = (Ret (YList (match entry_versions r with
                 | Some l => l
                 | None => []
                 end)), s, []).
Proof.
  destruct r as [n p [a|] [v|]]; reflexivity.
Qed.

Lemma getitem_service_arches repos (s : S) :
  getitem (service repos) "arches" s = (Ret (str_list arches), s, []).
Proof. reflexivity. Qed.

Lemma versions_of_items r :
  map py_str (match entry_versions r with
              | Some l => l
              | None => []
              end) = versions_of r.
Proof. unfold versions_of. destruct (entry_versions r); reflexivity. Qed.

(** A repo entry that passes is built with its lists as they are. *)
Lemma repo_data_passes repos r (s : S) :
  repo_passes arches r = true ->
  repo_data (service repos) (repo_yaml r) s = (Ret (repo_built r), s, []).
Proof.
  intros H. apply andb_prop in H. destruct H as [Ha Hv].
  unfold repo_data.
  rewrite (bind_ret_silent _ _ _ _ (getitem_repo_name r s)).
  rewrite (bind_ret_silent _ _ _ _ (getitem_repo_path r s)).
  rewrite (bind_ret_silent _ _ _ _ (getitem_repo_name r s)).
  rewrite (bind_ret_silent _ _ _ _ (get_default_repo_arches r s)).
  rewrite (bind_ret_silent _ _ _ _ (getitem_service_arches repos s)).
  rewrite (bind_ret_silent _ _ _ _
             (process_repo_attributes_subset _ _ _ s
                (forallb_contains_all _ _ Ha))).
  rewrite (bind_ret_silent _ _ _ _ (getitem_repo_name r s)).
  rewrite (bind_ret_silent _ _ _ _ (get_default_repo_versions r s)).
  rewrite (bind_ret_silent _ _ _ _ (eq_refl : iter (YList _) s = _)).
  rewrite versions_of_items.
  rewrite (bind_ret_silent _ _ _ _ (getitem_service_arches repos s)).
  rewrite (bind_ret_silent _ _ _ _
             (process_repo_attributes_subset _ _ _ s
                (forallb_contains_all _ _ Hv))).
  reflexivity.
Qed.

(** One that does not raises [ValidationError]. *)
Lemma repo_data_fails repos r (s : S) :
  repo_passes arches r = false ->
  exists x,
    (In x (arches_of r) \/ In x (versions_of r)) /\ ~ In x arches /\
    repo_data (service repos) (repo_yaml r) s
    = (Raise (ValidationError
                (absent_message x (YStr (entry_name r)) arches)), s, []).
Proof.
  intros H. unfold repo_passes in H.
  unfold repo_data.
  rewrite (bind_ret_silent _ _ _ _ (getitem_repo_name r s)).
  rewrite (bind_ret_silent _ _ _ _ (getitem_repo_path r s)).
  rewrite (bind_ret_silent _ _ _ _ (getitem_repo_name r s)).
  rewrite (bind_ret_silent _ _ _ _ (get_default_repo_arches r s)).
  rewrite (bind_ret_silent _ _ _ _ (getitem_service_arches repos s)).
  destruct (forallb (Py.contains arches) (arches_of r)) eqn:Ha.
  - cbn [andb] in H.
    rewrite (bind_ret_silent _ _ _ _
               (process_repo_attributes_subset _ _ _ s
                  (forallb_contains_all _ _ Ha))).
    rewrite (bind_ret_silent _ _ _ _ (getitem_repo_name r s)).
    rewrite (bind_ret_silent _ _ _ _ (get_default_repo_versions r s)).
    rewrite (bind_ret_silent _ _ _ _ (eq_refl : iter (YList _) s = _)).
    rewrite versions_of_items.
    rewrite (bind_ret_silent _ _ _ _ (getitem_service_arches repos s)).
    destruct (forallb_contains_first _ _ H) as (l1 & x & l2 & E & H1 & Hx).
    exists x. split; [right; rewrite E; apply in_elt|].
    split; [exact Hx|].
    rewrite E.
    apply bind_raise_silent.
    apply process_repo_attributes_absent; assumption.
  - destruct (forallb_contains_first _ _ Ha) as (l1 & x & l2 & E & H1 & Hx).
    exists x. split; [left; rewrite E; apply in_elt|].
    split; [exact Hx|].
    rewrite E.
    apply bind_raise_silent.
    apply process_repo_attributes_absent; assumption.
Qed.

Lemma for_each_repo_data_pass repos0 repos (s : S) :
  forallb (repo_passes arches) repos = true ->
  for_each (map repo_yaml repos) (repo_data (service repos0)) s
  = (Ret (map repo_built repos), s, []).
Proof.
  induction repos as [|r repos IH]; cbn [forallb map for_each];
    [reflexivity|].
  intros H. apply andb_prop in H. destruct H as [Hr Hrest].
  unfold bind. rewrite (repo_data_passes repos0 r s Hr), (IH Hrest).
  reflexivity.
Qed.

Lemma for_each_repo_data_fail repos0 repos (s : S) :
  forallb (repo_passes arches) repos = false ->
  exists r x,
    In r repos /\ (In x (arches_of r) \/ In x (versions_of r)) /\
    ~ In x arches /\
    for_each (map repo_yaml repos) (repo_data (service repos0)) s
    = (Raise (ValidationError
                (absent_message x (YStr (entry_name r)) arches)), s, []).
Proof.
  induction repos as [|r repos IH]; cbn [forallb map for_each];
    [discriminate|].
  destruct (repo_passes arches r) eqn:Hr; cbn [andb]; intros H.
  - destruct (IH H) as (r' & x & Hin & Hx & Hno & E).
    exists r', x. split; [right; exact Hin|]. split; [exact Hx|].
    split; [exact Hno|].
    unfold bind. rewrite (repo_data_passes repos0 r s Hr), E. reflexivity.
  - destruct (repo_data_fails repos0 r s Hr) as (x & Hx & Hno & E).
    exists r, x. split; [left; reflexivity|]. split; [exact Hx|].
    split; [exact Hno|].
    unfold bind. rewrite E. reflexivity.
Qed.

(** [process_main_config] on a document of the expected shape: it is
    accepted exactly when every repo passes, that is when the arches and
    the versions of every repo are among the [arches] of the document. *)
Lemma process_main_config_shape repos (s : S) :
  (forallb (repo_passes arches) repos = true ->
   process_main_config (service repos) s
   = (Ret (Some (MainConfig.mk allowed_outdate mirrors_dir versions
                   duplicated_versions (str_list arches)
                   required_protocols (map repo_built repos)), None),
      s, [])) /\
  (forallb (repo_passes arches) repos = false ->
   exists r x,
     In r repos /\ (In x (arches_of r) \/ In x (versions_of r)) /\
     ~ In x arches /\
     process_main_config (service repos) s
     = (Ret (None,
             Some (absent_message x (YStr (entry_name r)) arches)), s, [])).
Proof.
  split; intros H.
  - unfold process_main_config, try_except.
    rewrite (bind_ret_silent _ _ _ _
               (eq_refl : getitem (service repos) "allowed_outdate" s
                          = (Ret allowed_outdate, s, []))).
    rewrite (bind_ret_silent _ _ _ _
               (eq_refl : getitem (service repos) "mirrors_dir" s
                          = (Ret mirrors_dir, s, []))).
    rewrite (bind_ret_silent _ _ _ _
               (eq_refl : getitem (service repos) "versions" s
                          = (Ret versions, s, []))).
    rewrite (bind_ret_silent _ _ _ _
               (eq_refl : getitem (service repos) "duplicated_versions" s
                          = (Ret duplicated_versions, s, []))).
    rewrite (bind_ret_silent _ _ _ _ (getitem_service_arches repos s)).
    rewrite (bind_ret_silent _ _ _ _
               (eq_refl : getitem (service repos) "required_protocols" s
                          = (Ret required_protocols, s, []))).
    rewrite (bind_ret_silent _ _ _ _
               (eq_refl : getitem (service repos) "repos" s
                          = (Ret (YList (map repo_yaml repos)), s, []))).
    rewrite (bind_ret_silent _ _ _ _ (eq_refl : iter (YList _) s = _)).
    rewrite (bind_ret_silent _ _ _ _
               (for_each_repo_data_pass repos repos s H)).
    reflexivity.
  - destruct (for_each_repo_data_fail repos repos s H)
      as (r & x & Hin & Hx & Hno & E).
    exists r, x. split; [exact Hin|]. split; [exact Hx|].
    split; [exact Hno|].
    unfold process_main_config, try_except.
    rewrite (bind_ret_silent _ _ _ _
               (eq_refl : getitem (service repos) "allowed_outdate" s
                          = (Ret allowed_outdate, s, []))).
    rewrite (bind_ret_silent _ _ _ _
               (eq_refl : getitem (service repos) "mirrors_dir" s
                          = (Ret mirrors_dir, s, []))).
    rewrite (bind_ret_silent _ _ _ _
               (eq_refl : getitem (service repos) "versions" s
                          = (Ret versions, s, []))).
    rewrite (bind_ret_silent _ _ _ _
               (eq_refl : getitem (service repos) "duplicated_versions" s
                          = (Ret duplicated_versions, s, []))).
    rewrite (bind_ret_silent _ _ _ _ (getitem_service_arches repos s)).
    rewrite (bind_ret_silent _ _ _ _
               (eq_refl : getitem (service repos) "required_protocols" s
                          = (Ret required_protocols, s, []))).
    rewrite (bind_ret_silent _ _ _ _
               (eq_refl : getitem (service repos) "repos" s
                          = (Ret (YList (map repo_yaml repos)), s, []))).
    rewrite (bind_ret_silent _ _ _ _ (eq_refl : iter (YList _) s = _)).
    rewrite (bind_raise_silent _ _ _ _ E).
    reflexivity.
Qed.

End RepoAttributes.

(** C1 fails on the code: the versions of a repo are looked up in the
    [arches] of the document, not in its [versions].  A document whose repo
    names the architecture [x86_64] as a version is accepted, with that
    repo's versions outside the versions of the document; a document whose
    repo names version 8, which the document lists, is rejected. *)
Theorem repo_versions_are_checked_against_arches :
  (exists cfg repo,
     result (@Config.process_main_config unit Config.Example.arch_as_version
               tt) = Ret (Some cfg, None) /\
     Config.MainConfig.repos cfg = [repo] /\
     Config.RepoData.versions repo = Config.str_list ["x86_64"] /\
     Config.MainConfig.versions cfg = Config.str_list ["8"] /\
     ~ In "x86_64" ["8"]) /\
  result (@Config.process_main_config unit Config.Example.listed_version tt)
  = Ret (None,
         Some (Config.absent_message "8" (Config.YStr "baseos")
                 ["x86_64"; "aarch64"])) /\
  In "8" ["8"].
Proof.
  split; [|split].
  - eexists. eexists. split; [vm_compute; reflexivity|].
    repeat split. intros [H|[]]. discriminate.
  - vm_compute. reflexivity.
  - left. reflexivity.
Qed.

Section Discovery.

Import Config.

Variable schema : Type.
Variable load_yaml : string -> res yaml.
Variable load_json_schema : string -> res schema.
Variable validate : yaml -> schema -> res unit.
Variable rglob : string -> string -> list string.
Variable module_dir : string.

(** A descriptor that passes the mirror schema and has no key
    [allowed_outdate] makes [get_mirror_config] raise [KeyError]. *)
Lemma get_mirror_config_key_error path entries sch :
  load_yaml path = Ret (YDict entries) ->
  load_json_schema
    (Py.os_path_join module_dir ["json_schemas/mirror_config.json"])
  = Ret sch ->
  validate (YDict entries) sch = Ret tt ->
  lookup "allowed_outdate" entries = None ->
  get_mirror_config schema load_yaml load_json_schema validate module_dir
    path tt
  = (Raise (KeyError "allowed_outdate"), tt, []).
Proof.
  intros Hy Hs Hv Hk.
  unfold get_mirror_config, bind, lift. rewrite Hy, Hs.
  unfold config_validation, try_except, bind, lift. rewrite Hv.
  cbn. unfold process_main_config, try_except, bind, getitem.
  rewrite Hk. reflexivity.
Qed.

(** The exception leaves the loop of [get_mirrors_info]. *)
Lemma collect_key_error path rest entries sch gathered :
  load_yaml path = Ret (YDict entries) ->
  load_json_schema
    (Py.os_path_join module_dir ["json_schemas/mirror_config.json"])
  = Ret sch ->
  validate (YDict entries) sch = Ret tt ->
  lookup "allowed_outdate" entries = None ->
  collect schema load_yaml load_json_schema validate module_dir
    (path :: rest) gathered tt
  = (Raise (KeyError "allowed_outdate"), tt, []).
Proof.
  intros Hy Hs Hv Hk. cbn [collect]. unfold bind.
  rewrite (get_mirror_config_key_error path entries sch Hy Hs Hv Hk).
  reflexivity.
Qed.

End Discovery.

(** C2 fails on the code: [get_mirror_config] hands the descriptor to
    [process_main_config].  In a directory of three descriptors the invalid
    one is logged and skipped, and the first valid one then raises
    [KeyError] for [allowed_outdate], which ends the discovery with no
    list; [process_mirror_config] builds a [MirrorData] from the same
    descriptor. *)
Theorem discovery_reads_mirrors_as_main_config :
  Config.get_mirrors_info Config.Example.schema Config.Example.load_yaml
    Config.Example.load_json_schema Config.Example.validate
    Config.Example.rglob "/srv/mirrors" "mirrors.d" tt
  = (Raise (KeyError "allowed_outdate"), tt,
     [Log ERROR
        ("Mirror config " ++ Py.q "%s" ++ " is invalid because " ++
         Py.q "%s")
        [ArgStr "c.example.com.yml";
         ArgStr "'name' is a required property"]]) /\
  exists mirror_data,
    result (Config.process_mirror_config unit (fun _ => Ret tt)
              (fun _ => Raise RequestException)
              (Config.Example.mirror "a.example.com") tt)
    = Ret mirror_data /\
    Config.MirrorData.name mirror_data = Config.YStr "a.example.com".
Proof.
  split.
  - vm_compute. reflexivity.
  - eexists. split; [vm_compute; reflexivity|reflexivity].
Qed.

(** ** Further properties of the loaders *)

(** [_process_repo_attributes] on lists of strings: it gives the list back
    when all of it is in [attributes], and raises [ValidationError] for the
    first string that is not, naming it, the repo and the whole of
    [attributes]. *)
Theorem helper_checks_membership :
  forall (S : Type) (repo_name : Config.yaml) (l attributes : list string)
         (s : S),
    Config._process_repo_attributes repo_name (Config.str_list l)
      (Config.str_list attributes) s
    = (match find (fun x => negb (Py.contains attributes x)) l with
       | None => Ret (Config.str_list l)
       | Some x =>
           Raise (ValidationError
                    (Config.absent_message x repo_name attributes))
       end, s, []).
Proof.
  intros S repo_name l attributes s.
  destruct (forallb (Py.contains attributes) l) eqn:H.
  - rewrite process_repo_attributes_subset
      by (apply forallb_contains_all; exact H).
    replace (find (fun x => negb (Py.contains attributes x)) l) with
      (@None string); [reflexivity|].
    symmetry. induction l as [|y l IH]; [reflexivity|].
    cbn in H |- *. apply andb_prop in H. destruct H as [Hy Hl].
    rewrite Hy. cbn. apply IH. exact Hl.
  - destruct (forallb_contains_first _ _ H) as (l1 & x & l2 & -> & H1 & Hx).
    rewrite process_repo_attributes_absent by assumption.
    replace (find (fun x0 => negb (Py.contains attributes x0))
               (l1 ++ x :: l2)) with (Some x); [reflexivity|].
    symmetry. clear H. induction l1 as [|y l1 IH]; cbn.
    + destruct (Py.contains attributes x) eqn:E; [|reflexivity].
      apply contains_In in E. contradiction.
    + assert (Hy : Py.contains attributes y = true).
      { apply contains_In. apply H1. left. reflexivity. }
      rewrite Hy. cbn. apply IH. intros z Hz. apply H1. right. exact Hz.
Qed.

(** [process_main_config] on a service document of the expected shape: when
    the arches and the versions (as strings) of every repo are among the
    [arches] of the document it returns the configuration, each repo with
    its lists as they are; otherwise it returns no configuration and the
    message for a repo and an attribute of it that is not among them. *)
Theorem loader_compares_both_lists_with_arches :
  forall (S : Type)
         (allowed_outdate mirrors_dir versions duplicated_versions
          : Config.yaml)
         (arches : list string) (required_protocols : Config.yaml)
         (repos : list Config.repo_entry) (s : S),
    let doc :=
      Config.service_yaml allowed_outdate mirrors_dir versions
        duplicated_versions arches required_protocols repos in
    (forallb (Config.repo_passes arches) repos = true ->
     Config.process_main_config doc s
     = (Ret (Some (Config.MainConfig.mk allowed_outdate mirrors_dir versions
                     duplicated_versions (Config.str_list arches)
                     required_protocols (map Config.repo_built repos)),
             None), s, [])) /\
    (forallb (Config.repo_passes arches) repos = false ->
     exists r x,
       In r repos /\
       (In x (Config.arches_of r) \/ In x (Config.versions_of r)) /\
       ~ In x arches /\
       Config.process_main_config doc s
       = (Ret (None,
               Some (Config.absent_message x
                       (Config.YStr (Config.entry_name r)) arches)),
          s, [])).
Proof.
  intros S ao md vs dv arches rp repos s doc.
  exact (process_main_config_shape S ao md vs dv arches rp repos s).
Qed.

(** A descriptor that is a mapping without the key [allowed_outdate] and
    passes the mirror schema makes [get_mirror_config] raise [KeyError] for
    that key, with nothing logged. *)
Theorem valid_descriptor_raises_key_error :
  forall (schema : Type) load_yaml load_json_schema validate module_dir path
         entries (sch : schema),
    load_yaml path = Ret (Config.YDict entries) ->
    load_json_schema
      (Py.os_path_join module_dir ["json_schemas/mirror_config.json"])
    = Ret sch ->
    validate (Config.YDict entries) sch = Ret tt ->
    Config.lookup "allowed_outdate" entries = None ->
    Config.get_mirror_config schema load_yaml load_json_schema validate
      module_dir path tt
    = (Raise (KeyError "allowed_outdate"), tt, []).
Proof.
  intros schema load_yaml load_json_schema validate module_dir path entries
    sch Hy Hs Hv Hk.
  exact (get_mirror_config_key_error schema load_yaml load_json_schema
           validate module_dir path entries sch Hy Hs Hv Hk).
Qed.

Lemma valid_descriptor_raises_key_error_witness :
  Config.get_mirror_config Config.Example.schema Config.Example.load_yaml
    Config.Example.load_json_schema Config.Example.validate "/srv/mirrors"
    "mirrors.d/a.example.com.yml" tt
  = (Raise (KeyError "allowed_outdate"), tt, []).
Proof.
  exact (valid_descriptor_raises_key_error Config.Example.schema
           Config.Example.load_yaml Config.Example.load_json_schema
           Config.Example.validate "/srv/mirrors"
           "mirrors.d/a.example.com.yml"
           [ ("name", Config.YStr "a.example.com");
             ("address",
              Config.YDict
                [("https", Config.YStr "https://a.example.com/almalinux")]);
             ("update_frequency", Config.YStr "1h");
             ("sponsor", Config.YStr "Example");
             ("sponsor_url", Config.YStr "https://example.com") ]
           ["name"; "address"; "update_frequency"; "sponsor"; "sponsor_url"]
           eq_refl eq_refl eq_refl eq_refl).
Defined.

(** [get_config] on a file that loads: a document the schema refuses, or
    one [process_main_config] refuses with a message, is logged as an error
    and gives [None]; a document both accept gives its configuration, with
    nothing logged. *)
Theorem get_config_logs_and_gives_none :
  forall (schema : Type) load_yaml load_json_schema validate module_dir path
         doc (sch : schema),
    load_yaml path = Ret doc ->
    load_json_schema
      (Py.os_path_join module_dir ["json_schemas/service_config.json"])
    = Ret sch ->
    let run :=
      Config.get_config schema load_yaml load_json_schema validate module_dir
        path tt in
    let refused message :=
      (Ret None, tt,
       [Log ERROR
          ("Main config of the mirror service is invalid because " ++
           Py.q "%s")%string
          [ArgStr message]]) in
    (forall message,
       validate doc sch = Raise (ValidationError message) ->
       run = refused message) /\
    (forall c message,
       validate doc sch = Ret tt ->
       Config.process_main_config doc tt
       = (Ret (None, Some (String c message)), tt, []) ->
       run = refused (String c message)) /\
    (forall config,
       validate doc sch = Ret tt ->
       Config.process_main_config doc tt = (Ret (Some config, None), tt, []) ->
       run = (Ret (Some config), tt, [])).
Proof.
  intros schema load_yaml load_json_schema validate module_dir path doc sch
    Hy Hs run refused. subst run refused.
  unfold Config.get_config, bind, lift. rewrite Hy, Hs.
  unfold Config.config_validation, try_except, bind, lift.
  repeat apply conj.
  - intros message Hv. rewrite Hv. reflexivity.
  - intros c message Hv Hp. rewrite Hv. cbn. rewrite Hp. reflexivity.
  - intros config Hv Hp. rewrite Hv. cbn. rewrite Hp. reflexivity.
Qed.

Lemma get_config_logs_and_gives_none_witness :
  Config.get_config unit (fun _ => Ret Config.Example.listed_version)
    (fun _ => Ret tt) (fun _ _ => Ret tt) "/srv/mirrors"
    "mirrors/updates/config.yml" tt
  = (Ret None, tt,
     [Log ERROR
        ("Main config of the mirror service is invalid because " ++
         Py.q "%s")%string
        [ArgStr (Config.absent_message "8" (Config.YStr "baseos")
                   ["x86_64"; "aarch64"])]]).
Proof.
  exact (proj1 (proj2
           (get_config_logs_and_gives_none unit
              (fun _ => Ret Config.Example.listed_version)
              (fun _ => Ret tt) (fun _ _ => Ret tt) "/srv/mirrors"
              "mirrors/updates/config.yml" Config.Example.listed_version tt
              eq_refl eq_refl))
           "A"%char
           (String.substring 1 82
              (Config.absent_message "8" (Config.YStr "baseos")
                 ["x86_64"; "aarch64"]))
           eq_refl eq_refl).
Defined.

(** [_get_mirror_subnets]: a list is given back as it is; for an address,
    a fetch that raises [RequestException] or [JSONDecodeError] is logged
    as an error and gives the empty list, and a fetch that succeeds gives
    what it read. *)
Theorem subnets_fetch_failure_gives_empty_list :
  forall requests_get_json mirror_name,
    (forall subnets,
       Config._get_mirror_subnets requests_get_json (Config.YList subnets)
         mirror_name tt
       = (Ret (Config.YList subnets), tt, [])) /\
    (forall url e,
       requests_get_json url = Raise e ->
       e = RequestException \/ e = JSONDecodeError ->
       Config._get_mirror_subnets requests_get_json (Config.YStr url)
         mirror_name tt
       = (Ret (Config.YList []), tt,
          [Log ERROR
             ("Cannot get subnets of mirror " ++ Py.q "%s" ++ " by url " ++
              Py.q "%s" ++ " because " ++ Py.q "%s")%string
             [ArgStr (Config.py_str mirror_name); ArgStr url; ArgExn e]])) /\
    (forall url subnets,
       requests_get_json url = Ret subnets ->
       Config._get_mirror_subnets requests_get_json (Config.YStr url)
         mirror_name tt
       = (Ret subnets, tt, [])).
Proof.
  intros requests_get_json mirror_name. repeat apply conj.
  - reflexivity.
  - intros url e He Hkind.
    unfold Config._get_mirror_subnets, try_except, lift. rewrite He.
    destruct Hkind as [->| ->]; reflexivity.
  - intros url subnets He.
    unfold Config._get_mirror_subnets, try_except, lift. rewrite He.
    reflexivity.
Qed.

(** ** Further properties of the probe *)

(** The URL of a check, where the address is not empty and does not end
    with a separator, and the version and the path of the repo are not
    empty and neither start nor end with one: the four parts with one
    separator between them. *)
Theorem check_url_of_plain_parts :
  forall mirror_url version repo_path : string,
    mirror_url <> EmptyString -> Py.endswith_sep mirror_url = false ->
    version <> EmptyString -> Py.startswith version "/" = false ->
    Py.endswith_sep version = false ->
    repo_path <> EmptyString -> Py.startswith repo_path "/" = false ->
    Py.endswith_sep repo_path = false ->
    Probe.check_url mirror_url version repo_path
    = (mirror_url ++ "/" ++ version ++ "/" ++ repo_path ++
       "/repodata/repomd.xml")%string.
Proof.
  intros u v p Hu Hue Hv Hvs Hve Hp Hps Hpe.
  unfold Probe.check_url, Py.os_path_join. cbn [fold_left].
  rewrite (join_step_plain u v Hu Hue Hvs).
  assert (H1 : (u ++ "/" ++ v)%string <> EmptyString).
  { apply append_not_empty. discriminate. }
  assert (H1e : Py.endswith_sep (u ++ "/" ++ v) = false).
  { rewrite endswith_sep_append by discriminate.
    change ("/" ++ v)%string with (String "/" v).
    cbn [Py.endswith_sep]. destruct v; [contradiction|exact Hve]. }
  rewrite (join_step_plain _ p H1 H1e Hps).
  assert (H2 : ((u ++ "/" ++ v) ++ "/" ++ p)%string <> EmptyString).
  { apply append_not_empty. discriminate. }
  assert (H2e : Py.endswith_sep ((u ++ "/" ++ v) ++ "/" ++ p) = false).
  { rewrite endswith_sep_append by discriminate.
    change ("/" ++ p)%string with (String "/" p).
    cbn [Py.endswith_sep]. destruct p; [contradiction|exact Hpe]. }
  rewrite (join_step_plain _ "repodata/repomd.xml" H2 H2e eq_refl).
  rewrite !append_assoc. reflexivity.
Qed.

Lemma check_url_of_plain_parts_witness :
  Probe.check_url "https://example.com" "9" "x86_64/baseos"
  = "https://example.com/9/x86_64/baseos/repodata/repomd.xml".
Proof.
  refine (check_url_of_plain_parts "https://example.com" "9" "x86_64/baseos"
            _ eq_refl _ eq_refl eq_refl _ eq_refl eq_refl); discriminate.
Defined.

(** What the loop does with [arches]: under any version of the list, a
    repo without arches that comes right after a repo with arches whose
    check passed is checked with the first architecture of that repo.  The
    check of the repo [r1], at place [length rs1] of the repos, under the
    version [v], at place [length vs1] of the versions, is the request
    with number [length vs1 * length repos + length rs1] of the run. *)
Theorem later_repo_takes_arch_of_earlier :
  forall session http_get m vs1 v vs2 rs1 r1 r2 rs2 arches req
         (s : session) u a1 tl front rq rp back,
    let versions := vs1 ++ v :: vs2 in
    let repos := rs1 ++ r1 :: r2 :: rs2 in
    let run :=
      Probe.mirror_available session http_get m versions repos arches req s in
    Probe.MirrorData.private m = false ->
    Probe.next_address (Probe.MirrorData.urls m) req = Ret u ->
    Probe.RepoData.arches r1 = a1 :: tl ->
    Probe.RepoData.arches r2 = [] ->
    gets (events run) = front ++ (rq, rp) :: back ->
    length front = length vs1 * length repos + length rs1 ->
    Probe.ok_reply rp = true ->
    rq = Probe.check_request u v r1 a1 /\
    exists rp' back',
      back = (Probe.check_request u v r2 a1, rp') :: back'.
Proof.
  intros session http_get m vs1 v vs2 rs1 r1 r2 rs2 arches req s u a1 tl
    front rq rp back versions repos run Hp Hn H1 H2 Hg Hlen Hok.
  subst run.
  destruct (mirror_available_loop session http_get m versions repos arches
              req s u Hp Hn) as (_ & Hg' & _).
  rewrite Hg' in Hg. clear Hg'.
  pose proof (for_pairs_runs session http_get (Probe.MirrorData.name m) u
                (list_prod versions repos) arches s) as Hrun.
  assert (Hpairs : list_prod versions repos
                   = (list_prod vs1 repos ++ map (pair v) rs1)
                     ++ (v, r1) :: (v, r2)
                        :: (map (pair v) rs2 ++ list_prod vs2 repos)).
  { unfold versions. rewrite list_prod_app_l. cbn [list_prod].
    unfold repos at 2. rewrite map_app. cbn [map].
    rewrite <- !app_assoc. reflexivity. }
  assert (Hlen' : length front
                  = length (list_prod vs1 repos ++ map (pair v) rs1)).
  { rewrite length_app, length_prod, length_map. exact Hlen. }
  exact (run_adjacent session http_get _ _ _ _ _ _ Hrun _ v r1 v r2 _ a1 tl
           front (rq, rp) back Hpairs H1 H2 Hg Hlen' Hok).
Qed.

Lemma later_repo_takes_arch_of_earlier_witness :
  map (fun g => req_url (fst g))
    (skipn 4 (gets (events (Probe.mirror_available Probe.scripted
                              Probe.scripted_get Probe.Example.mirror
                              ["8"; "9"] Probe.Example.three_repos
                              ["x86_64"] ["https"] []))))
  = ["https://example.com/9/extras/aarch64/os/repodata/repomd.xml";
     "https://example.com/9/aarch64/baseos/repodata/repomd.xml"] /\
  exists rp' back',
    skipn 5 (gets (events (Probe.mirror_available Probe.scripted
                             Probe.scripted_get Probe.Example.mirror
                             ["8"; "9"] Probe.Example.three_repos
                             ["x86_64"] ["https"] [])))
    = (Probe.check_request "https://example.com" "9" Probe.Example.baseos
         "aarch64", rp') :: back'.
Proof.
  split; [reflexivity|].
  refine (proj2 (later_repo_takes_arch_of_earlier Probe.scripted
                   Probe.scripted_get Probe.Example.mirror ["8"] "9" []
                   [Probe.Example.baseos] Probe.Example.extras
                   Probe.Example.baseos [] ["x86_64"] ["https"] []
                   "https://example.com" "aarch64" []
                   (firstn 4 (gets (events
                      (Probe.mirror_available Probe.scripted
                         Probe.scripted_get Probe.Example.mirror
                         ["8"; "9"] Probe.Example.three_repos
                         ["x86_64"] ["https"] []))))
                   (Probe.check_request "https://example.com" "9"
                      Probe.Example.extras "aarch64")
                   (Status 200)
                   (skipn 5 (gets (events
                      (Probe.mirror_available Probe.scripted
                         Probe.scripted_get Probe.Example.mirror
                         ["8"; "9"] Probe.Example.three_repos
                         ["x86_64"] ["https"] []))))
                   eq_refl eq_refl eq_refl eq_refl _ _ eq_refl));
    reflexivity.
Defined.

(** ** The requests and the log of the probe *)

Lemma errors_app (a b : list event) : errors (a ++ b) = errors a ++ errors b.
Proof. unfold errors. apply filter_app. Qed.

Section ProbeTrace.

Import Probe.

Variable session : Type.
Variable http_get : session -> request -> reply * session.

Lemma replay_all_ok s rqs :
  (forall s' rq, ok_reply (fst (http_get s' rq)) = true) ->
  Forall (fun g => ok_reply (snd g) = true) (replay http_get s rqs).
Proof.
  intros Hok. revert s. induction rqs as [|rq rqs IH]; intros s; cbn.
  - constructor.
  - constructor; [apply Hok|apply IH].
Qed.

(** The loop logs one error when it returns and none otherwise. *)
Lemma for_pairs_errors n u pairs a s :
  length (errors (events (for_pairs session http_get n u pairs a s)))
  = match result (for_pairs session http_get n u pairs a s) with
    | Ret (Return _) => 1
    | _ => 0
    end.
Proof.
  revert a s. induction pairs as [|[v r] rest IH]; intros a s;
    [reflexivity|].
  cbn [for_pairs]. unfold bind.
  destruct (or_list (RepoData.arches r) a) as [|arch tl] eqn:E.
  - rewrite (check_repo_stuck session http_get n u v r a s E). reflexivity.
  - destruct (check_repo_run session http_get n u v r a s arch tl E)
      as (logs & Hl & He & _ & ->).
    change (errors (Get (check_request u v r arch)
              (fst (http_get s (check_request u v r arch))) :: logs))
      with (errors logs) in *.
    destruct (outcome (fst (http_get s (check_request u v r arch))))
      as [[|]|e].
    + specialize (IH (arch :: tl)
                    (snd (http_get s (check_request u v r arch)))).
      destruct (for_pairs session http_get n u rest (arch :: tl)
                  (snd (http_get s (check_request u v r arch))))
        as [[x s2] ev2].
      unfold events, result in *. cbn [fst snd] in *.
      rewrite (errors_app (_ :: logs) ev2), length_app, IH.
      change (errors (Get (check_request u v r arch)
                (fst (http_get s (check_request u v r arch))) :: logs))
        with (errors logs).
      rewrite He. reflexivity.
    + unfold events, result. cbn [fst snd ret]. rewrite ?app_nil_r.
      change (errors (Get (check_request u v r arch)
                (fst (http_get s (check_request u v r arch))) :: logs))
        with (errors logs).
      rewrite He. reflexivity.
    + unfold events, result. cbn [fst snd].
      change (errors (Get (check_request u v r arch)
                (fst (http_get s (check_request u v r arch))) :: logs))
        with (errors logs).
      rewrite He. reflexivity.
Qed.

End ProbeTrace.

Lemma mirror_available_errors session http_get m versions repos arches req
    (s : session) :
  let run :=
    Probe.mirror_available session http_get m versions repos arches req s in
  length (errors (events run))
  = match result run with
    | Ret (_, false) => 1
    | _ => 0
    end.
Proof.
  cbv zeta. unfold Probe.mirror_available.
  destruct (Probe.MirrorData.private m) eqn:Hp; [reflexivity|].
  destruct (next_address_cases (Probe.MirrorData.urls m) req)
    as [[u Hn]|Hn]; rewrite Hn; [|reflexivity].
  unfold bind, log. rewrite for_versions_pairs.
  pose proof (for_pairs_errors session http_get (Probe.MirrorData.name m) u
                (list_prod versions repos) arches s) as He.
  pose proof (for_pairs_runs session http_get (Probe.MirrorData.name m) u
                (list_prod versions repos) arches s) as Hrun.
  destruct (Probe.for_pairs session http_get (Probe.MirrorData.name m) u
              (list_prod versions repos) arches s)
    as [[[fl|e] s1] ev1] eqn:E; unfold events, result, errors in *;
    cbn in He |- *.
  - destruct fl as [a1|vd]; cbn.
    + rewrite filter_app, length_app, He. reflexivity.
    + destruct (run_return_failed session http_get _ _ _ _ _ _ vd Hrun
                  eq_refl) as [-> _].
      rewrite app_nil_r, He. reflexivity.
  - exact He.
Qed.

Lemma errors_only_errors (ev : list event) :
  errors ev = filter is_error (errors ev).
Proof.
  unfold errors. induction ev as [|e l IH]; [reflexivity|].
  cbn. destruct (is_error e) eqn:Ee; [|exact IH].
  cbn. rewrite Ee. f_equal. exact IH.
Qed.

Section ProbeTraceClaims.

Import Probe.

Variable session : Type.
Variable http_get : session -> request -> reply * session.

Let probe := mirror_available session http_get.

(** The probe logs an error exactly when it returns [(name, false)], and
    then only one: a probe that returns [(name, true)] or raises logs
    none. *)
Theorem one_error_logged_iff_unavailable m versions repos arches req s :
  let run := probe m versions repos arches req s in
  (result run = Ret (MirrorData.name m, false) <->
   exists fmt args, errors (events run) = [Log ERROR fmt args]) /\
  (result run <> Ret (MirrorData.name m, false) <->
   errors (events run) = []).
Proof.
  intros run.
  assert (He : length (errors (events run))
               = match result run with
                 | Ret (_, false) => 1
                 | _ => 0
                 end)
    by exact (mirror_available_errors session http_get m versions repos
                arches req s).
  assert (Hname : forall n b, result run = Ret (n, b) ->
                    n = MirrorData.name m).
  { intros n b Hr. subst run probe.
    destruct (MirrorData.private m) eqn:Hp.
    - destruct (mirror_available_private session http_get m versions repos
                  arches req s Hp) as (Hr' & _). congruence.
    - destruct (next_address_cases (MirrorData.urls m) req) as [[u Hn]|Hn].
      + destruct (mirror_available_loop session http_get m versions repos
                    arches req s u Hp Hn) as (Hr' & _).
        pose proof (for_pairs_runs session http_get (MirrorData.name m) u
                      (list_prod versions repos) arches s) as Hrun.
        destruct (result (for_pairs session http_get (MirrorData.name m) u
                            (list_prod versions repos) arches s))
          as [[a1|vd]|e'] eqn:E.
        * congruence.
        * destruct (run_return_failed _ _ _ _ _ _ _ _ _ Hrun E) as [-> _].
          congruence.
        * congruence.
      + destruct (mirror_available_no_address session http_get m versions
                    repos arches req s Hp Hn) as (Hr' & _). congruence. }
  assert (Hshape : forall l : list event,
            l = filter is_error l ->
            length l = 1 -> exists fmt args, l = [Log ERROR fmt args]).
  { intros [|e [|e' l]] Hl Hlen; try discriminate.
    cbn in Hl. destruct e as [[|] fmt args|rq rp]; cbn in Hl;
      try discriminate.
    exists fmt, args. reflexivity. }
  pose proof (errors_only_errors (events run)) as Hidem.
  destruct (result run) as [[n [|]]|e] eqn:E.
  - split; split.
    + discriminate.
    + intros (fmt & args & H). rewrite H in He. discriminate.
    + intros _. destruct (errors (events run)); [reflexivity|discriminate].
    + intros _. discriminate.
  - rewrite (Hname n false eq_refl). split; split.
    + intros _. apply Hshape; assumption.
    + reflexivity.
    + intros H. contradiction.
    + intros H. rewrite H in He. discriminate.
  - split; split.
    + discriminate.
    + intros (fmt & args & H). rewrite H in He. discriminate.
    + intros _. destruct (errors (events run)); [reflexivity|discriminate].
    + intros _. discriminate.
Qed.

(** The probe sends its requests one after the other to the session, each
    to the session the one before left, and leaves the session the last
    one left; it sends at most one request for each pair of a version and
    a repo, so none is sent again. *)
Theorem requests_are_sequential_and_bounded m versions repos arches req s :
  let run := probe m versions repos arches req s in
  gets (events run) = replay http_get s (map fst (gets (events run))) /\
  final run = after http_get s (map fst (gets (events run))) /\
  length (gets (events run)) <= length versions * length repos.
Proof.
  intros run. subst run probe.
  destruct (MirrorData.private m) eqn:Hp.
  - destruct (mirror_available_private session http_get m versions repos
                arches req s Hp) as (_ & Hg & Hf).
    rewrite Hg, Hf. cbn. repeat split. lia.
  - destruct (next_address_cases (MirrorData.urls m) req) as [[u Hn]|Hn].
    + destruct (mirror_available_loop session http_get m versions repos
                  arches req s u Hp Hn) as (_ & Hg & Hf).
      pose proof (for_pairs_runs session http_get (MirrorData.name m) u
                    (list_prod versions repos) arches s) as Hrun.
      rewrite Hg, Hf.
      destruct (run_replay session http_get _ _ _ _ _ _ Hrun) as [H1 H2].
      split; [exact H1|]. split; [exact H2|].
      rewrite <- (length_prod versions repos).
      exact (run_length session http_get _ _ _ _ _ _ Hrun).
    + destruct (mirror_available_no_address session http_get m versions
                  repos arches req s Hp Hn) as (_ & Hg & Hf).
      rewrite Hg, Hf. cbn. repeat split. lia.
Qed.

(** With a session that answers every request with a response whose body
    is read and whose status is 200, a mirror that is not private, has an
    address and does not run out of an architecture is available, after
    one request for every pair of the cross product. *)
Theorem all_ok_session_gives_true m versions repos arches req s u :
  (forall s' rq, ok_reply (fst (http_get s' rq)) = true) ->
  MirrorData.private m = false ->
  next_address (MirrorData.urls m) req = Ret u ->
  ~ no_arch m versions repos arches req ->
  let run := probe m versions repos arches req s in
  result run = Ret (MirrorData.name m, true) /\
  requested (events run) = plan u (list_prod versions repos) arches /\
  length (gets (events run)) = length versions * length repos.
Proof.
  intros Hok Hp Hn Hno run. subst run probe.
  destruct (mirror_available_loop session http_get m versions repos
              arches req s u Hp Hn) as (Hr & Hg & _).
  pose proof (for_pairs_runs session http_get (MirrorData.name m) u
                (list_prod versions repos) arches s) as Hrun.
  destruct (run_replay session http_get _ _ _ _ _ _ Hrun) as [Hrep _].
  pose proof (replay_all_ok session http_get s
                (map fst (gets (events (for_pairs session http_get
                   (MirrorData.name m) u (list_prod versions repos)
                   arches s)))) Hok) as Hall.
  rewrite <- Hrep in Hall. clear Hrep.
  unfold requested. rewrite Hr, Hg.
  destruct (result (for_pairs session http_get (MirrorData.name m) u
                      (list_prod versions repos) arches s))
    as [[a1|vd]|e] eqn:E.
  - destruct (run_next_all _ _ _ _ _ _ _ _ _ Hrun E) as (H1 & H2 & _).
    split; [reflexivity|]. split; [exact H1|].
    rewrite H2. apply length_prod.
  - exfalso.
    destruct (run_return_failed _ _ _ _ _ _ _ _ _ Hrun E)
      as (_ & front & g & Hgs & Hbad & _).
    rewrite Hgs in Hall.
    apply Forall_app in Hall. destruct Hall as [_ Hall].
    inversion Hall as [|? ? Hg0 _]; subst. congruence.
  - exfalso.
    destruct (run_raise _ _ _ _ _ _ _ _ _ Hrun E)
      as [(_ & _ & v & r & rest & Hpairs & Hor)|(front & rq & Hgs & _)].
    + apply Hno.
      apply or_list_nil in Hor. destruct Hor as [Hr0 Ha].
      split; [exact Hp|]. split; [exists u; exact Hn|].
      destruct versions as [|v0 vs]; [discriminate|].
      split; [discriminate|].
      destruct repos as [|r0 rs].
      * cbn in Hpairs. rewrite list_prod_nil_r in Hpairs. discriminate.
      * cbn in Hpairs. injection Hpairs as _ <- _.
        exists r0, rs. repeat split; assumption.
    + rewrite Hgs in Hall.
      apply Forall_app in Hall. destruct Hall as [_ Hall].
      inversion Hall as [|? ? Hg0 _]; subst. discriminate.
Qed.

End ProbeTraceClaims.

(** ** What the probe does not look at *)

Section ProbeBlind.

Import Probe.

Variable session : Type.
Variable http_get : session -> request -> reply * session.

(** How a round ends, up to what later rounds can see of [arches]. *)
Let view (x : res flow) : res (option string + string * bool) :=
  match x with
  | Ret (Next a) => Ret (inl (hd_error a))
  | Ret (Return v) => Ret (inr v)
  | Raise e => Raise e
  end.

Lemma or_list_hd x y x' y' :
  hd_error x = hd_error x' -> hd_error y = hd_error y' ->
  hd_error (or_list x y) = hd_error (or_list x' y').
Proof.
  destruct x, x'; cbn; intros Hx Hy; try discriminate; assumption.
Qed.

Lemma check_repo_same n u v r r' a a' s :
  same_checks r r' -> hd_error a = hd_error a' ->
  view (result (check_repo session http_get n u v r a s))
  = view (result (check_repo session http_get n u v r' a' s)) /\
  final (check_repo session http_get n u v r a s)
  = final (check_repo session http_get n u v r' a' s) /\
  events (check_repo session http_get n u v r a s)
  = events (check_repo session http_get n u v r' a' s).
Proof.
  intros [Hpath Hhd] Ha.
  pose proof (or_list_hd _ _ _ _ Hhd Ha) as Ho.
  unfold check_repo, bind, lift, try_except, get. rewrite <- Hpath.
  destruct (or_list (RepoData.arches r) a) as [|x l];
    destruct (or_list (RepoData.arches r') a') as [|x' l'];
    cbn in Ho; try discriminate.
  - repeat split.
  - injection Ho as <-. cbn [item0].
    destruct (http_get s _) as [rp s1].
    destruct rp as [code|e]; [destruct (code =? 200)%Z|destruct e];
      repeat split.
Qed.

Lemma for_repos_same n u v repos repos' :
  Forall2 same_checks repos repos' ->
  forall a a' s,
    hd_error a = hd_error a' ->
    view (result (for_repos session http_get n u v repos a s))
    = view (result (for_repos session http_get n u v repos' a' s)) /\
    final (for_repos session http_get n u v repos a s)
    = final (for_repos session http_get n u v repos' a' s) /\
    events (for_repos session http_get n u v repos a s)
    = events (for_repos session http_get n u v repos' a' s).
Proof.
  induction 1 as [|r r' repos repos' Hr _ IH]; intros a a' s Ha.
  - cbn. rewrite Ha. repeat split.
  - cbn [for_repos]. unfold bind.
    destruct (check_repo_same n u v r r' a a' s Hr Ha) as (H1 & H2 & H3).
    destruct (check_repo session http_get n u v r a s)
      as [[[[a1|vd]|e] s1] ev1];
      destruct (check_repo session http_get n u v r' a' s)
        as [[[[a1'|vd']|e'] s1'] ev1'];
      unfold result, final, events in H1, H2, H3; cbn in H1, H2, H3;
      try discriminate; subst.
    + injection H1 as H1.
      destruct (IH a1 a1' s1' H1) as (I1 & I2 & I3).
      destruct (for_repos session http_get n u v repos a1 s1')
        as [[x s2] ev2];
        destruct (for_repos session http_get n u v repos' a1' s1')
          as [[x' s2'] ev2'].
      unfold result, final, events in *. cbn in *. subst.
      repeat split. exact I1.
    + injection H1 as <-. repeat split.
    + injection H1 as <-. repeat split.
Qed.

Lemma for_versions_same n u versions repos repos' :
  Forall2 same_checks repos repos' ->
  forall a a' s,
    hd_error a = hd_error a' ->
    view (result (for_versions session http_get n u versions repos a s))
    = view (result (for_versions session http_get n u versions repos' a' s))
    /\
    final (for_versions session http_get n u versions repos a s)
    = final (for_versions session http_get n u versions repos' a' s) /\
    events (for_versions session http_get n u versions repos a s)
    = events (for_versions session http_get n u versions repos' a' s).
Proof.
  intros Hrepos. induction versions as [|v versions IH]; intros a a' s Ha.
  - cbn. rewrite Ha. repeat split.
  - cbn [for_versions]. unfold bind.
    destruct (for_repos_same n u v repos repos' Hrepos a a' s Ha)
      as (H1 & H2 & H3).
    destruct (for_repos session http_get n u v repos a s)
      as [[[[a1|vd]|e] s1] ev1];
      destruct (for_repos session http_get n u v repos' a' s)
        as [[[[a1'|vd']|e'] s1'] ev1'];
      unfold result, final, events in H1, H2, H3; cbn in H1, H2, H3;
      try discriminate; subst.
    + injection H1 as H1.
      destruct (IH a1 a1' s1' H1) as (I1 & I2 & I3).
      destruct (for_versions session http_get n u versions repos a1 s1')
        as [[x s2] ev2];
        destruct (for_versions session http_get n u versions repos' a1' s1')
          as [[x' s2'] ev2'].
      unfold result, final, events in *. cbn in *. subst.
      repeat split. exact I1.
    + injection H1 as <-. repeat split.
    + injection H1 as <-. repeat split.
Qed.

(** The probe reads of a repo its path and the first of its arches, and of
    the default arches the first: repos that differ in their names, in
    their versions or in the rest of their arches give the same run, with
    the same result, session, requests and log.  In particular the
    versions of a repo do not keep it from being checked under every
    version of [versions]. *)
Theorem probe_reads_path_and_first_arch m versions repos repos' arches
    arches' req s :
  Forall2 same_checks repos repos' ->
  hd_error arches = hd_error arches' ->
  mirror_available session http_get m versions repos arches req s
  = mirror_available session http_get m versions repos' arches' req s.
Proof.
  intros Hrepos Ha. unfold mirror_available.
  destruct (MirrorData.private m); [reflexivity|].
  destruct (next_address (MirrorData.urls m) req) as [u|e]; [|reflexivity].
  unfold bind, log.
  destruct (for_versions_same (MirrorData.name m) u versions repos repos'
              Hrepos arches arches' s Ha) as (H1 & H2 & H3).
  destruct (for_versions session http_get (MirrorData.name m) u versions
              repos arches s) as [[[[a1|vd]|e] s1] ev1];
    destruct (for_versions session http_get (MirrorData.name m) u versions
                repos' arches' s) as [[[[a1'|vd']|e'] s1'] ev1'];
    unfold result, final, events in H1, H2, H3; cbn in H1, H2, H3;
    try discriminate; subst.
  - reflexivity.
  - injection H1 as <-. reflexivity.
  - injection H1 as <-. reflexivity.
Qed.

(** The address is chosen by membership in [required_protocols] alone:
    the order of the required protocols, and how often one is listed, do
    not change the result, the requests or the session the probe leaves. *)
Theorem order_of_required_protocols_is_not_read m versions repos arches req
    req' s :
  (forall k, In k req <-> In k req') ->
  let run := mirror_available session http_get m versions repos arches req s
  in
  let run' :=
    mirror_available session http_get m versions repos arches req' s in
  next_address (MirrorData.urls m) req = next_address (MirrorData.urls m) req'
  /\ result run = result run' /\ gets (events run) = gets (events run') /\
  final run = final run'.
Proof.
  intros Hmem.
  assert (Hn : next_address (MirrorData.urls m) req
               = next_address (MirrorData.urls m) req').
  { induction (MirrorData.urls m) as [|[k a] l IH]; cbn; [reflexivity|].
    assert (Hc : Py.contains req k = Py.contains req' k).
    { destruct (Py.contains req k) eqn:E1, (Py.contains req' k) eqn:E2;
        try reflexivity.
      - apply contains_In in E1. apply Hmem in E1.
        apply contains_In in E1. congruence.
      - apply contains_In in E2. apply Hmem in E2.
        apply contains_In in E2. congruence. }
    rewrite Hc, IH. reflexivity. }
  cbv zeta. split; [exact Hn|].
  unfold mirror_available. rewrite <- Hn.
  destruct (MirrorData.private m); [repeat split|].
  destruct (next_address (MirrorData.urls m) req) as [u|[]]; repeat split.
Qed.

End ProbeBlind.

(** ** Paths and placeholders *)

Lemma replace_scan_skip (old new x b : string) :
  Py.replace_scan old new (String.length x) (x ++ b)
  = Py.replace_scan old new 0 b.
Proof.
  induction x as [|c x IH]; cbn [String.length append].
  - reflexivity.
  - cbn [Py.replace_scan]. exact IH.
Qed.

Lemma replace_scan_occurrence (c : ascii) (old' new b : string) :
  Py.replace_scan (String c old') new 0 (String c old' ++ b)
  = (new ++ Py.replace_scan (String c old') new 0 b)%string.
Proof.
  cbn [append Py.replace_scan].
  change (String c (old' ++ b)) with (String c old' ++ b)%string.
  rewrite prefix_append.
  cbn [String.length]. rewrite Nat.sub_1_r. cbn [Nat.pred].
  rewrite replace_scan_skip. reflexivity.
Qed.

Lemma replace_scan_other (c : ascii) (old' new a rest : string) :
  Config.has_char c a = false ->
  Py.replace_scan (String c old') new 0 (a ++ rest)
  = (a ++ Py.replace_scan (String c old') new 0 rest)%string.
Proof.
  induction a as [|x a IH]; intros H; [reflexivity|].
  unfold Config.has_char in H. cbn in H.
  apply orb_false_elim in H. destruct H as [Hx Ha].
  cbn [append Py.replace_scan].
  assert (Hp : String.prefix (String c old') (String x (a ++ rest)) = false).
  { cbn. destruct (ascii_dec c x) as [->|_]; [|reflexivity].
    rewrite Ascii.eqb_refl in Hx. discriminate. }
  rewrite Hp. f_equal. apply IH. exact Ha.
Qed.

(** The placeholder in a path: the text before its first occurrence, where
    no [$] stands, is kept, the occurrence becomes the architecture, and
    the rest of the path is gone through the same way; a path without [$]
    is left as it is. *)
Theorem basearch_is_replaced_from_the_left :
  forall a b arch : string,
    Config.has_char "$" a = false ->
    Py.replace (a ++ "$basearch" ++ b) "$basearch" arch
    = (a ++ arch ++ Py.replace b "$basearch" arch)%string /\
    Py.replace a "$basearch" arch = a.
Proof.
  intros a b arch Ha. unfold Py.replace. split.
  - rewrite (replace_scan_other "$" "basearch" arch a _ Ha).
    rewrite (replace_scan_occurrence "$" "basearch" arch b). reflexivity.
  - pose proof (replace_scan_other "$" "basearch" arch a "" Ha) as H.
    assert (Hnil : forall s : string, (s ++ "")%string = s).
    { induction s as [|x s IH]; cbn; [reflexivity|]. rewrite IH.
      reflexivity. }
    rewrite Hnil in H. rewrite H. cbn. apply Hnil.
Qed.

Lemma basearch_is_replaced_from_the_left_witness :
  Py.replace ("BaseOS/" ++ "$basearch" ++ "/os") "$basearch" "x86_64"
  = ("BaseOS/" ++ "x86_64" ++ Py.replace "/os" "$basearch" "x86_64")%string
  /\ Py.replace "BaseOS/" "$basearch" "x86_64" = "BaseOS/".
Proof.
  exact (basearch_is_replaced_from_the_left "BaseOS/" "/os" "x86_64"
           eq_refl).
Defined.

(** A repo whose path starts with the separator: [os.path.join] drops what
    came before it, so the URL of its check is the path, with the
    architecture in place, and [repodata/repomd.xml], without the address
    of the mirror and without the version. *)
Theorem absolute_repo_path_drops_address :
  forall (u v arch : string) (r : Probe.RepoData.t),
    Py.startswith (Probe.RepoData.path r) "/" = true ->
    let p := Py.replace (Probe.RepoData.path r) "$basearch" arch in
    req_url (Probe.check_request u v r arch)
    = (if Py.endswith_sep p then p ++ "repodata/repomd.xml"
       else p ++ "/repodata/repomd.xml")%string.
Proof.
  intros u v arch r H p.
  assert (Hp : Py.startswith p "/" = true).
  { subst p. apply startswith_sep in H. destruct H as [rest Hr].
    rewrite Hr. unfold Py.replace, Py.startswith.
    change (Py.replace_scan "$basearch" arch 0 (String "/" rest))
      with (String "/" (Py.replace_scan "$basearch" arch 0 rest)).
    change (String "/" (Py.replace_scan "$basearch" arch 0 rest))
      with ("/" ++ Py.replace_scan "$basearch" arch 0 rest)%string.
    apply prefix_append. }
  unfold Probe.check_request, Probe.check_url, Py.os_path_join.
  cbn [req_url fold_left]. fold p.
  assert (H1 : forall path, Py.join_step path p = p).
  { intros path. unfold Py.join_step. rewrite Hp. reflexivity. }
  rewrite H1. unfold Py.join_step.
  change (Py.startswith "repodata/repomd.xml" "/") with false.
  destruct p as [|c rest]; [discriminate|].
  cbn [String.eqb orb].
  destruct (Py.endswith_sep (String c rest)); reflexivity.
Qed.

Lemma absolute_repo_path_drops_address_witness :
  req_url (Probe.check_request "https://example.com" "9"
             (Probe.RepoData.mk "abs" "/pub/$basearch/os" [] []) "x86_64")
  = "/pub/x86_64/os/repodata/repomd.xml".
Proof.
  exact (absolute_repo_path_drops_address "https://example.com" "9" "x86_64"
           (Probe.RepoData.mk "abs" "/pub/$basearch/os" [] []) eq_refl).
Defined.

(** ** Mappings *)

Section Mappings.

Import Config.

Variable S : Type.

Lemma getitem_found entries key v (s : S) :
  lookup key entries = Some v ->
  getitem (YDict entries) key s = (Ret v, s, []).
Proof. intros H. unfold getitem. rewrite H. reflexivity. Qed.

Lemma getitem_missing entries key (s : S) :
  lookup key entries = None ->
  getitem (YDict entries) key s = (Raise (KeyError key), s, []).
Proof. intros H. unfold getitem. rewrite H. reflexivity. Qed.



(** The first key of [keys] that a mapping does not have. *)
Lemma first_missing_split keys entries k :
  find (fun key => match lookup key entries with
                   | None => true
                   | Some _ => false
                   end) keys = Some k ->
  exists before after,
    keys = (before ++ k :: after)%list /\
    lookup k entries = None /\
    forall key, In key before -> exists v, lookup key entries = Some v.
Proof.
  induction keys as [|key keys IH]; cbn; [discriminate|].
  destruct (lookup key entries) as [v|] eqn:E.
  - intros H. destruct (IH H) as (before & after & -> & Hk & Hb).
    exists (key :: before), after. split; [reflexivity|].
    split; [exact Hk|].
    intros key' [<-|Hin]; [exists v; exact E|apply Hb; exact Hin].
  - intros H. injection H as <-.
    exists [], keys. split; [reflexivity|]. split; [exact E|].
    intros key' [].
Qed.

End Mappings.

(** ** Computations that log nothing *)

Section Silent.

Import Config.

Variable S : Type.

(** A computation that leaves the state and logs nothing. *)
Let silent {A} (m : M S A) : Prop :=
  forall s, final (m s) = s /\ events (m s) = [].

Lemma silent_ret {A} (a : A) : silent (ret a).
Proof. intros s. split; reflexivity. Qed.

Lemma silent_raise {A} (e : exn) : silent (@raise S A e).
Proof. intros s. split; reflexivity. Qed.

Lemma silent_bind {A B} (m : M S A) (f : A -> M S B) :
  silent m -> (forall a, silent (f a)) -> silent (bind m f).
Proof.
  intros Hm Hf s. unfold bind. specialize (Hm s).
  destruct (m s) as [[[a|e] s1] ev1]; unfold final, events in *;
    cbn in *; destruct Hm as [-> ->]; [|split; reflexivity].
  specialize (Hf a s). destruct (f a s) as [[r s2] ev2].
  unfold final, events in Hf. cbn in *. exact Hf.
Qed.

Lemma silent_try_except {A} (m : M S A) (handler : exn -> option (M S A)) :
  silent m -> (forall e h, handler e = Some h -> silent h) ->
  silent (try_except m handler).
Proof.
  intros Hm Hh s. unfold try_except. specialize (Hm s).
  destruct (m s) as [[[a|e] s1] ev1]; unfold final, events in *;
    cbn in *; destruct Hm as [-> ->]; [split; reflexivity|].
  destruct (handler e) as [h|] eqn:E; [|split; reflexivity].
  specialize (Hh e h E s). destruct (h s) as [[r s2] ev2].
  unfold final, events in Hh. cbn in *. exact Hh.
Qed.

Lemma silent_for_each {A B} (xs : list A) (f : A -> M S B) :
  (forall x, silent (f x)) -> silent (for_each xs f).
Proof.
  intros Hf. induction xs as [|x xs IH]; cbn [for_each].
  - apply silent_ret.
  - apply silent_bind; [apply Hf|]. intros y.
    apply silent_bind; [exact IH|]. intros ys. apply silent_ret.
Qed.

Lemma silent_getitem d key : silent (@getitem S d key).
Proof.
  unfold getitem. destruct d; try apply silent_raise.
  destruct (lookup key entries); [apply silent_ret|apply silent_raise].
Qed.

Lemma silent_get_default d key default : silent (@get_default S d key default).
Proof.
  unfold get_default. destruct d; try apply silent_raise.
  destruct (lookup key entries); apply silent_ret.
Qed.

Lemma silent_iter v : silent (@iter S v).
Proof.
  unfold iter. destruct v; try apply silent_raise; apply silent_ret.
Qed.

Lemma silent_py_in item container : silent (@py_in S item container).
Proof.
  unfold py_in.
  destruct container; try apply silent_raise; try apply silent_ret;
    destruct item; try apply silent_raise; apply silent_ret.
Qed.

Lemma silent_str_join sep v : silent (@str_join S sep v).
Proof.
  unfold str_join. apply silent_bind; [apply silent_iter|]. intros items.
  apply silent_bind; [|intros parts; apply silent_ret].
  apply silent_for_each. intros x.
  destruct x; try apply silent_raise. apply silent_ret.
Qed.

Lemma silent_process_repo_attributes repo_name repo_attributes attributes :
  silent (@_process_repo_attributes S repo_name repo_attributes attributes).
Proof.
  unfold _process_repo_attributes.
  apply silent_bind; [apply silent_iter|]. intros items.
  apply silent_bind; [|intros us; apply silent_ret].
  apply silent_for_each. intros x. unfold check_attribute.
  apply silent_bind; [apply silent_py_in|]. intros found.
  destruct (negb found); [|apply silent_ret].
  apply silent_bind; [apply silent_str_join|]. intros joined.
  apply silent_raise.
Qed.

Lemma silent_repo_data yaml_data repo : silent (@repo_data S yaml_data repo).
Proof.
  unfold repo_data.
  repeat first
    [ apply silent_ret
    | apply silent_bind;
      [ first [ apply silent_getitem | apply silent_get_default
              | apply silent_iter | apply silent_process_repo_attributes ]
      | intros ? ] ].
Qed.

Lemma silent_process_main_config yaml_data :
  silent (@process_main_config S yaml_data).
Proof.
  unfold process_main_config. apply silent_try_except.
  - repeat first
      [ apply silent_ret
      | apply silent_bind;
        [ first [ apply silent_getitem | apply silent_iter
                | apply silent_for_each; intros ?; apply silent_repo_data ]
        | intros ? ] ].
  - intros e h He. destruct e; try discriminate.
    injection He as <-. apply silent_ret.
Qed.

(** What is true of the result of every continuation, and of every
    exception, is true of the result of a sequence. *)
Lemma bind_result {A B} (P : res B -> Prop) (m : M S A) (f : A -> M S B) s :
  (forall e, P (Raise e)) ->
  (forall a s1, P (result (f a s1))) ->
  P (result (bind m f s)).
Proof.
  intros He Hf. unfold bind.
  destruct (m s) as [[[a|e] s1] ev1]; [|apply He].
  specialize (Hf a s1). destruct (f a s1) as [[r s2] ev2]. exact Hf.
Qed.

End Silent.

(** [process_main_config] on any document: it returns a configuration
    without a message or a message without a configuration, or raises an
    exception that is not [ValidationError] (a missing key, a value of the
    wrong type); it logs nothing. *)
Theorem process_main_config_returns_one_of_two :
  forall (S : Type) (yaml_data : Config.yaml) (s : S),
    let run := Config.process_main_config yaml_data s in
    match result run with
    | Ret (Some _, None) => True
    | Ret (None, Some _) => True
    | Ret _ => False
    | Raise (ValidationError _) => False
    | Raise _ => True
    end /\
    final run = s /\ events run = [].
Proof.
  intros S yaml_data s run. split.
  - subst run. unfold Config.process_main_config.
    set (inner := bind (Config.getitem yaml_data "allowed_outdate") _).
    assert (Hin : match result (inner s) with
                  | Ret (Some _, None) => True
                  | Ret _ => False
                  | Raise _ => True
                  end).
    { subst inner.
      repeat (apply (bind_result S
                       (fun x => match x with
                                 | Ret (Some _, None) => True
                                 | Ret _ => False
                                 | Raise _ => True
                                 end)); [intros e; exact I|intros ? ?]).
      exact I. }
    unfold try_except.
    destruct (inner s) as [[[[[c|] [msg|]]|e] s1] ev1];
      unfold result in *; cbn in *; try contradiction; try exact I.
    destruct e; exact I.
  - exact (silent_process_main_config S yaml_data s).
Qed.

(** [process_main_config] on a mapping that lacks one of the seven keys it
    reads raises [KeyError] for the first of them, in the order
    [allowed_outdate], [mirrors_dir], [versions], [duplicated_versions],
    [arches], [required_protocols], [repos]; the exception is not turned
    into a message. *)
Theorem process_main_config_missing_key :
  forall (S : Type) (entries : list (string * Config.yaml)) (k : string)
         (s : S),
    find (fun key => match Config.lookup key entries with
                     | None => true
                     | Some _ => false
                     end)
      ["allowed_outdate"; "mirrors_dir"; "versions"; "duplicated_versions";
       "arches"; "required_protocols"; "repos"] = Some k ->
    Config.process_main_config (Config.YDict entries) s
    = (Raise (KeyError k), s, []).
Proof.
  intros S entries k s H.
  unfold Config.process_main_config, try_except.
  cbn [find] in H.
  destruct (Config.lookup "allowed_outdate" entries) eqn:E1;
    [rewrite (bind_ret_silent _ _ _ _ (getitem_found S _ _ _ s E1))
    |injection H as <-;
     rewrite (bind_raise_silent _ _ _ _ (getitem_missing S _ _ s E1));
     reflexivity].
  destruct (Config.lookup "mirrors_dir" entries) eqn:E2;
    [rewrite (bind_ret_silent _ _ _ _ (getitem_found S _ _ _ s E2))
    |injection H as <-;
     rewrite (bind_raise_silent _ _ _ _ (getitem_missing S _ _ s E2));
     reflexivity].
  destruct (Config.lookup "versions" entries) eqn:E3;
    [rewrite (bind_ret_silent _ _ _ _ (getitem_found S _ _ _ s E3))
    |injection H as <-;
     rewrite (bind_raise_silent _ _ _ _ (getitem_missing S _ _ s E3));
     reflexivity].
  destruct (Config.lookup "duplicated_versions" entries) eqn:E4;
    [rewrite (bind_ret_silent _ _ _ _ (getitem_found S _ _ _ s E4))
    |injection H as <-;
     rewrite (bind_raise_silent _ _ _ _ (getitem_missing S _ _ s E4));
     reflexivity].
  destruct (Config.lookup "arches" entries) eqn:E5;
    [rewrite (bind_ret_silent _ _ _ _ (getitem_found S _ _ _ s E5))
    |injection H as <-;
     rewrite (bind_raise_silent _ _ _ _ (getitem_missing S _ _ s E5));
     reflexivity].
  destruct (Config.lookup "required_protocols" entries) eqn:E6;
    [rewrite (bind_ret_silent _ _ _ _ (getitem_found S _ _ _ s E6))
    |injection H as <-;
     rewrite (bind_raise_silent _ _ _ _ (getitem_missing S _ _ s E6));
     reflexivity].
  destruct (Config.lookup "repos" entries) eqn:E7;
    [discriminate
    |injection H as <-;
     rewrite (bind_raise_silent _ _ _ _ (getitem_missing S _ _ s E7));
     reflexivity].
Qed.

Lemma process_main_config_missing_key_witness :
  Config.process_main_config
    (Config.YDict [("allowed_outdate", Config.YStr "25h");
                   ("versions", Config.YList [])]) tt
  = (Raise (KeyError "mirrors_dir"), tt, []).
Proof.
  exact (process_main_config_missing_key unit
           [("allowed_outdate", Config.YStr "25h");
            ("versions", Config.YList [])] "mirrors_dir" tt eq_refl).
Defined.

(** ** Mirror descriptors *)

Section MirrorDescriptors.

Import Config.

Variable GeoLocationData : Type.
Variable load_from_json : yaml -> res GeoLocationData.
Variable requests_get_json : string -> res yaml.

Let process_mirror_config :=
  process_mirror_config GeoLocationData load_from_json requests_get_json.




End MirrorDescriptors.



(** ** Discovery *)

Section DiscoverySkips.

Import Config.

Variable schema : Type.
Variable load_yaml : string -> res yaml.
Variable load_json_schema : string -> res schema.
Variable validate : yaml -> schema -> res unit.
Variable rglob : string -> string -> list string.
Variable module_dir : string.

Let get_mirror_config :=
  get_mirror_config schema load_yaml load_json_schema validate module_dir.
Let collect :=
  collect schema load_yaml load_json_schema validate module_dir.
Let get_mirrors_info :=
  get_mirrors_info schema load_yaml load_json_schema validate rglob
    module_dir.

Variable sch : schema.
Hypothesis schema_loads :
  load_json_schema
    (Py.os_path_join module_dir ["json_schemas/mirror_config.json"])
  = Ret sch.

(** The documents and the messages of the files the schema refuses. *)
Variable doc : string -> yaml.
Variable message : string -> string.

(** A file that loads and that the mirror schema refuses. *)
Let refused (path : string) : Prop :=
  load_yaml path = Ret (doc path) /\
  validate (doc path) sch = Raise (ValidationError (message path)).

(** The record logged for such a file. *)
Let refusal (path : string) : event :=
  Log ERROR
    ("Mirror config " ++ Py.q "%s" ++ " is invalid because " ++ Py.q "%s")
    [ArgStr (path_name path); ArgStr (message path)].

Lemma get_mirror_config_refused path :
  refused path ->
  get_mirror_config path tt = (Ret None, tt, [refusal path]).
Proof.
  intros [Hy Hv].
  unfold get_mirror_config, Config.get_mirror_config, bind, lift.
  rewrite Hy, schema_loads.
  unfold config_validation, try_except, bind, lift. rewrite Hv.
  reflexivity.
Qed.

Lemma get_mirror_config_unreadable path e :
  load_yaml path = Raise e ->
  get_mirror_config path tt = (Raise e, tt, []).
Proof.
  intros Hy.
  unfold get_mirror_config, Config.get_mirror_config, bind, lift.
  rewrite Hy. reflexivity.
Qed.

Lemma collect_refused prefix rest gathered :
  (forall path, In path prefix -> refused path) ->
  collect (prefix ++ rest) gathered tt
  = (result (collect rest gathered tt), tt,
     map refusal prefix ++ events (collect rest gathered tt)).
Proof.
  induction prefix as [|path prefix IH]; intros H.
  - cbn. destruct (collect rest gathered tt) as [[r []] ev]. reflexivity.
  - cbn [app map]. unfold collect in *. cbn [Config.collect]. unfold bind.
    fold (get_mirror_config path tt).
    rewrite (get_mirror_config_refused path (H path (or_introl eq_refl))).
    rewrite IH by (intros p Hp; apply H; right; exact Hp).
    reflexivity.
Qed.

(** When every descriptor found loads and is refused by the mirror schema,
    [get_mirrors_info] returns the empty list and has logged one error for
    each file, in the order they were found, with the name of the file and
    the message of the validator. *)
Theorem refused_descriptors_are_skipped_and_logged mirrors_dir :
  (forall path, In path (rglob mirrors_dir "*.yml") -> refused path) ->
  get_mirrors_info mirrors_dir tt
  = (Ret [], tt, map refusal (rglob mirrors_dir "*.yml")).
Proof.
  intros H. unfold get_mirrors_info, Config.get_mirrors_info.
  fold collect.
  rewrite <- (app_nil_r (rglob mirrors_dir "*.yml")) at 1.
  rewrite (collect_refused _ [] [] H). cbn. rewrite app_nil_r.
  reflexivity.
Qed.

(** A descriptor that cannot be read or parsed ends the discovery: after
    refused files, which are logged and skipped, the exception of
    [load_yaml] leaves [get_mirrors_info], and the files after it are not
    read. *)
Theorem unreadable_descriptor_ends_discovery mirrors_dir prefix path rest e :
  rglob mirrors_dir "*.yml" = prefix ++ path :: rest ->
  (forall p, In p prefix -> refused p) ->
  load_yaml path = Raise e ->
  get_mirrors_info mirrors_dir tt = (Raise e, tt, map refusal prefix).
Proof.
  intros Hfiles Hpre He. unfold get_mirrors_info, Config.get_mirrors_info.
  fold collect. rewrite Hfiles.
  rewrite (collect_refused prefix (path :: rest) [] Hpre).
  unfold collect. cbn [Config.collect]. unfold bind.
  fold (get_mirror_config path tt).
  rewrite (get_mirror_config_unreadable path e He).
  cbn. rewrite app_nil_r. reflexivity.
Qed.

End DiscoverySkips.

(** *** The further theorems at work *)

Lemma refused_descriptors_are_skipped_and_logged_witness :
  Config.get_mirrors_info Config.Example.schema
    (fun _ => Ret Config.Example.nameless) Config.Example.load_json_schema
    Config.Example.validate
    (fun _ _ => ["mirrors.d/c.example.com.yml"; "mirrors.d/eu/d.yml"])
    "/srv/mirrors" "mirrors.d" tt
  = (Ret [], tt,
     map (fun path =>
            Log ERROR
              ("Mirror config " ++ Py.q "%s" ++ " is invalid because " ++
               Py.q "%s")%string
              [ArgStr (Config.path_name path);
               ArgStr "'name' is a required property"])
       ["mirrors.d/c.example.com.yml"; "mirrors.d/eu/d.yml"]).
Proof.
  refine (refused_descriptors_are_skipped_and_logged Config.Example.schema
            (fun _ => Ret Config.Example.nameless)
            Config.Example.load_json_schema Config.Example.validate
            (fun _ _ => ["mirrors.d/c.example.com.yml"; "mirrors.d/eu/d.yml"])
            "/srv/mirrors"
            ["name"; "address"; "update_frequency"; "sponsor"; "sponsor_url"]
            eq_refl (fun _ => Config.Example.nameless)
            (fun _ => "'name' is a required property"%string) "mirrors.d" _).
  intros path _. split; reflexivity.
Defined.

Lemma unreadable_descriptor_ends_discovery_witness :
  Config.get_mirrors_info Config.Example.schema
    (fun path =>
       if String.eqb path "mirrors.d/broken.yml" then Raise YAMLError
       else Ret Config.Example.nameless)
    Config.Example.load_json_schema Config.Example.validate
    (fun _ _ =>
       ["mirrors.d/c.example.com.yml"; "mirrors.d/broken.yml";
        "mirrors.d/z.yml"])
    "/srv/mirrors" "mirrors.d" tt
  = (Raise YAMLError, tt,
     map (fun path =>
            Log ERROR
              ("Mirror config " ++ Py.q "%s" ++ " is invalid because " ++
               Py.q "%s")%string
              [ArgStr (Config.path_name path);
               ArgStr "'name' is a required property"])
       ["mirrors.d/c.example.com.yml"]).
Proof.
  refine (unreadable_descriptor_ends_discovery Config.Example.schema
            (fun path =>
               if String.eqb path "mirrors.d/broken.yml" then Raise YAMLError
               else Ret Config.Example.nameless)
            Config.Example.load_json_schema Config.Example.validate
            (fun _ _ =>
               ["mirrors.d/c.example.com.yml"; "mirrors.d/broken.yml";
                "mirrors.d/z.yml"])
            "/srv/mirrors"
            ["name"; "address"; "update_frequency"; "sponsor"; "sponsor_url"]
            eq_refl (fun _ => Config.Example.nameless)
            (fun _ => "'name' is a required property"%string) "mirrors.d"
            ["mirrors.d/c.example.com.yml"] "mirrors.d/broken.yml"
            ["mirrors.d/z.yml"] YAMLError eq_refl _ eq_refl).
  intros p [<-|[]]. split; reflexivity.
Defined.

Lemma all_ok_session_gives_true_witness :
  result (Probe.mirror_available unit (fun s _ => (Status 200, s))
            Probe.Example.mirror ["8"; "9"]
            [Probe.Example.extras; Probe.Example.baseos] ["x86_64"]
            ["https"] tt)
    = Ret ("mirror", true) /\
  requested (events (Probe.mirror_available unit (fun s _ => (Status 200, s))
                       Probe.Example.mirror ["8"; "9"]
                       [Probe.Example.extras; Probe.Example.baseos]
                       ["x86_64"] ["https"] tt))
    = Probe.plan "https://example.com"
        (list_prod ["8"; "9"] [Probe.Example.extras; Probe.Example.baseos])
        ["x86_64"] /\
  length (gets (events (Probe.mirror_available unit
                          (fun s _ => (Status 200, s)) Probe.Example.mirror
                          ["8"; "9"]
                          [Probe.Example.extras; Probe.Example.baseos]
                          ["x86_64"] ["https"] tt)))
    = 2 * 2.
Proof.
  refine (all_ok_session_gives_true unit (fun s _ => (Status 200, s))
            Probe.Example.mirror ["8"; "9"]
            [Probe.Example.extras; Probe.Example.baseos] ["x86_64"]
            ["https"] tt "https://example.com" _ eq_refl eq_refl _).
  - intros s' rq. reflexivity.
  - intros (_ & _ & _ & r & rest & _ & _ & Ha). discriminate Ha.
Defined.

Lemma probe_reads_path_and_first_arch_witness :
  Probe.mirror_available Probe.scripted Probe.scripted_get
    Probe.Example.mirror ["8"; "9"]
    [Probe.Example.extras; Probe.Example.baseos] ["x86_64"] ["https"]
    [Status 200; TimedOut]
  = Probe.mirror_available Probe.scripted Probe.scripted_get
      Probe.Example.mirror ["8"; "9"]
      [Probe.RepoData.mk "other" "extras/$basearch/os"
         ["aarch64"; "ppc64le"] ["9"];
       Probe.RepoData.mk "base" "$basearch/baseos" [] ["9"]]
      ["x86_64"; "s390x"] ["https"] [Status 200; TimedOut].
Proof.
  refine (probe_reads_path_and_first_arch Probe.scripted Probe.scripted_get
            Probe.Example.mirror ["8"; "9"]
            [Probe.Example.extras; Probe.Example.baseos]
            [Probe.RepoData.mk "other" "extras/$basearch/os"
               ["aarch64"; "ppc64le"] ["9"];
             Probe.RepoData.mk "base" "$basearch/baseos" [] ["9"]]
            ["x86_64"] ["x86_64"; "s390x"] ["https"] [Status 200; TimedOut]
            _ eq_refl).
  repeat constructor.
Defined.

Lemma order_of_required_protocols_is_not_read_witness :
  Probe.next_address (Probe.MirrorData.urls Probe.Example.two_urls)
    ["https"; "http"]
  = Probe.next_address (Probe.MirrorData.urls Probe.Example.two_urls)
      ["http"; "https"; "http"].
Proof.
  refine (proj1 (order_of_required_protocols_is_not_read Probe.scripted
                   Probe.scripted_get Probe.Example.two_urls ["9"]
                   [Probe.Example.baseos] ["x86_64"] ["https"; "http"]
                   ["http"; "https"; "http"] [] _)).
  intros k. cbn. tauto.
Defined.
